(** * Text to vCard converter: phone normalisation, contact parsing, vCard output

    A shallow embedding of the three pure functions of [src/app.py]
    ([normalize_phone], [parse_contacts], [to_vcard]) together with the part of
    the Python [str] API they call, and the properties of the specification
    stated over that embedding. *)

From Stdlib Require Import String Ascii.
From Stdlib Require Import List NArith Bool Arith Lia.
Import ListNotations.

(** ** Python strings

    A Python [str] is a sequence of Unicode code points; the program is used
    with Cyrillic names, so the embedding keeps code points (as [N]) and not
    bytes. *)

Module PyStr.

Definition char := N.
Definition str := list char.

Local Open Scope N_scope.

(** Decoding of a UTF-8 byte sequence; only used to write the string literals
    of the source as they appear there. *)
Fixpoint decode_utf8 (bs : list N) : str :=
  match bs with
  | [] => []
  | b0 :: r0 =>
      if b0 <? 0x80 then b0 :: decode_utf8 r0
      else if b0 <? 0xE0 then
        match r0 with
        | b1 :: r1 => (b0 mod 32 * 64 + b1 mod 64) :: decode_utf8 r1
        | _ => []
        end
      else if b0 <? 0xF0 then
        match r0 with
        | b1 :: b2 :: r2 =>
            (b0 mod 16 * 4096 + b1 mod 64 * 64 + b2 mod 64) :: decode_utf8 r2
        | _ => []
        end
      else
        match r0 with
        | b1 :: b2 :: b3 :: r3 =>
            (b0 mod 8 * 262144 + b1 mod 64 * 4096 + b2 mod 64 * 64 + b3 mod 64)
              :: decode_utf8 r3
        | _ => []
        end
  end.

(** A string literal of the source. *)
Definition lit (s : string) : str :=
  decode_utf8 (map N_of_ascii (list_ascii_of_string s)).

Arguments lit s%_string.

(** Membership in a table of inclusive code point ranges. *)
Definition in_ranges (tbl : list (N * N)) (c : char) : bool :=
  existsb (fun r => (fst r <=? c) && (c <=? snd r)) tbl.

(** The characters [\d] matches in a [str] pattern: the decimal digits of
    Unicode, category Nd ([\D] is its complement), here as of Unicode 14.0
    (CPython 3.11).  The ASCII digits are the first range; the properties below
    use of the table only that it holds them, that it holds neither ['+'] nor
    a blank, and, for the counterexamples, that it holds U+0663. *)
Definition decimal_ranges : list (N * N) :=
  [ (0x30,0x39); (0x660,0x669); (0x6F0,0x6F9); (0x7C0,0x7C9); (0x966,0x96F);
    (0x9E6,0x9EF); (0xA66,0xA6F); (0xAE6,0xAEF); (0xB66,0xB6F); (0xBE6,0xBEF);
    (0xC66,0xC6F); (0xCE6,0xCEF); (0xD66,0xD6F); (0xDE6,0xDEF); (0xE50,0xE59);
    (0xED0,0xED9); (0xF20,0xF29); (0x1040,0x1049); (0x1090,0x1099);
    (0x17E0,0x17E9); (0x1810,0x1819); (0x1946,0x194F); (0x19D0,0x19D9);
    (0x1A80,0x1A89); (0x1A90,0x1A99); (0x1B50,0x1B59); (0x1BB0,0x1BB9);
    (0x1C40,0x1C49); (0x1C50,0x1C59); (0xA620,0xA629); (0xA8D0,0xA8D9);
    (0xA900,0xA909); (0xA9D0,0xA9D9); (0xA9F0,0xA9F9); (0xAA50,0xAA59);
    (0xABF0,0xABF9); (0xFF10,0xFF19); (0x104A0,0x104A9); (0x10D30,0x10D39);
    (0x11066,0x1106F); (0x110F0,0x110F9); (0x11136,0x1113F);
    (0x111D0,0x111D9); (0x112F0,0x112F9); (0x11450,0x11459);
    (0x114D0,0x114D9); (0x11650,0x11659); (0x116C0,0x116C9);
    (0x11730,0x11739); (0x118E0,0x118E9); (0x11950,0x11959);
    (0x11C50,0x11C59); (0x11D50,0x11D59); (0x11DA0,0x11DA9);
    (0x16A60,0x16A69); (0x16AC0,0x16AC9); (0x16B50,0x16B59);
    (0x1D7CE,0x1D7FF); (0x1E140,0x1E149); (0x1E2F0,0x1E2F9);
    (0x1E950,0x1E959); (0x1FBF0,0x1FBF9) ].

(** The characters [str.strip()] removes when called without argument. *)
Definition space_ranges : list (N * N) :=
  [ (0x9,0xD); (0x1C,0x20); (0x85,0x85); (0xA0,0xA0); (0x1680,0x1680);
    (0x2000,0x200A); (0x2028,0x2029); (0x202F,0x202F); (0x205F,0x205F);
    (0x3000,0x3000) ].

(** The line boundaries of [str.splitlines()]. *)
Definition linebreak_ranges : list (N * N) :=
  [ (0xA,0xD); (0x1C,0x1E); (0x85,0x85); (0x2028,0x2029) ].

Definition is_decimal (c : char) : bool := in_ranges decimal_ranges c.
Definition is_space (c : char) : bool := in_ranges space_ranges c.
Definition is_linebreak (c : char) : bool := in_ranges linebreak_ranges c.

(** The ASCII digits ['0'..'9'], the digits the specification speaks of. *)
Definition is_ascii_digit (c : char) : bool := (0x30 <=? c) && (c <=? 0x39).

Definition LF : char := 0xA.
Definition CR : char := 0xD.

(** The literal ["\n"] of the source (one line feed). *)
Definition NL : str := [LF].

(** Truth value of a string: [if s] holds for the non-empty strings. *)
Definition truthy (s : str) : bool :=
  match s with [] => false | _ :: _ => true end.

Fixpoint lstrip (s : str) : str :=
  match s with
  | [] => []
  | c :: r => if is_space c then lstrip r else s
  end.

Definition rstrip (s : str) : str := rev (lstrip (rev s)).

(** [s.strip()] *)
Definition strip (s : str) : str := rstrip (lstrip s).

(** [s.startswith(p)] *)
Fixpoint startswith (s p : str) {struct p} : bool :=
  match p with
  | [] => true
  | x :: p' =>
      match s with
      | [] => false
      | y :: s' => (x =? y) && startswith s' p'
      end
  end.

(** [re.sub(r"\D", "", s)]: every character that is not matched by [\d] is
    replaced by the empty string. *)
Definition sub_nondigits (s : str) : str := filter is_decimal s.

(** [s[1:]] *)
Definition slice_from_1 (s : str) : str := tl s.

(** [s.splitlines()]: [cur] holds, reversed, the characters of the line being
    read.  A ["\r\n"] counts as one boundary, and a boundary at the very end of
    the text opens no further line. *)
Fixpoint splitlines_from (cur : str) (s : str) : list str :=
  match s with
  | [] => match cur with [] => [] | _ :: _ => [rev cur] end
  | c :: rest =>
      if is_linebreak c then
        match rest with
        | c' :: rest' =>
            if (c =? CR) && (c' =? LF)
            then rev cur :: splitlines_from [] rest'
            else rev cur :: splitlines_from [] rest
        | [] => rev cur :: splitlines_from [] rest
        end
      else splitlines_from (c :: cur) rest
  end.

Definition splitlines (s : str) : list str := splitlines_from [] s.

(** [sep.join(parts)] *)
Fixpoint join (sep : str) (parts : list str) : str :=
  match parts with
  | [] => []
  | [p] => p
  | p :: ps => p ++ sep ++ join sep ps
  end.

End PyStr.

Import PyStr.

(** ** Exceptions

    Indexing a list out of range raises in Python; the embedding makes that
    outcome explicit, and so is the exhaustion of the fuel that bounds the
    [while] loop. *)

Inductive exn : Type :=
| IndexError
| OutOfFuel.

Inductive result (A : Type) : Type :=
| Ok (a : A)
| Raise (e : exn).

Arguments Ok {A} a.
Arguments Raise {A} e.

Definition bind {A B : Type} (m : result A) (k : A -> result B) : result B :=
  match m with
  | Ok a => k a
  | Raise e => Raise e
  end.

Notation "x <- m ;; k" := (bind m (fun x => k))
  (at level 61, m at next level, right associativity).

(** [xs[i]] for a non-negative index. *)
Definition getitem {A : Type} (xs : list A) (i : nat) : result A :=
  match nth_error xs i with
  | Some x => Ok x
  | None => Raise IndexError
  end.

(** ** The program *)

(** [normalize_phone(raw_phone)]; [None] is the absent input. *)
Definition normalize_phone (raw_phone : option str) : str :=
  match raw_phone with
  | None => []
  | Some raw =>
      let phone := strip raw in
      let digits := sub_nondigits phone in
      let has_plus := startswith phone (lit "+") in
      if has_plus then lit "+" ++ digits
      else if (length digits =? 11)%nat && startswith digits (lit "8")
      then lit "+7" ++ slice_from_1 digits
      else if (length digits =? 11)%nat && startswith digits (lit "7")
      then lit "+" ++ digits
      else if truthy digits then lit "+" ++ digits else []
  end.

(** A (name, phone) pair. *)
Definition contact : Type := (str * str)%type.

(** The two warning messages (f-strings of the source). *)
Definition warn_dangling (name : str) : str :=
  lit "Строка с именем без телефона пропущена: '" ++ name ++ lit "'".

Definition warn_unrecognized (name phone : str) : str :=
  lit "Не удалось распознать телефон для: '" ++ name
    ++ lit "' (строка: '" ++ phone ++ lit "')".

(** The first two statements of [parse_contacts]: the trimmed, non-empty
    lines of the text. *)
Definition raw_lines (text : str) : list str :=
  let lines := map strip (splitlines text) in
  filter truthy lines.

(** The [while i < len(lines)] loop of [parse_contacts], one iteration per
    unit of fuel, on the loop state [(i, pairs, warnings)].  The [break] of the
    dangling-name branch returns the state at once ([i] is not read again),
    the [continue] of the failed-phone branch re-enters the loop. *)
Fixpoint pair_loop (fuel : nat) (lines : list str) (i : nat)
    (pairs : list contact) (warnings : list str)
    : result (list contact * list str) :=
  match fuel with
  | O => Raise OutOfFuel
  | S fuel' =>
      if (i <? length lines)%nat then
        name <- getitem lines i ;;
        if (i + 1 <? length lines)%nat then
          phone <- getitem lines (i + 1) ;;
          let i := (i + 2)%nat in
          let norm_phone := normalize_phone (Some phone) in
          if negb (truthy norm_phone) then
            pair_loop fuel' lines i pairs
              (warnings ++ [warn_unrecognized name phone])
          else
            pair_loop fuel' lines i (pairs ++ [(name, norm_phone)]) warnings
        else
          Ok (pairs, warnings ++ [warn_dangling name])
      else Ok (pairs, warnings)
  end.

(** The loop of [parse_contacts] run from its initial state [i = 0],
    [pairs = []], [warnings = []].  Every iteration advances [i] by at least
    one, so [len(lines) + 1] units of fuel are enough. *)
Definition parse_lines (lines : list str) : result (list contact * list str) :=
  pair_loop (S (length lines)) lines 0 [] [].

(** [parse_contacts(text)] *)
Definition parse_contacts (text : str) : result (list contact * list str) :=
  let lines := raw_lines text in
  parse_lines lines.

(** The five lines of one vCard block. *)
Definition vcard_block_lines (e : contact) : list str :=
  let (name, phone) := e in
  [ lit "BEGIN:VCARD";
    lit "VERSION:3.0";
    lit "FN:" ++ name;
    lit "TEL;TYPE=CELL:" ++ phone;
    lit "END:VCARD" ].

(** [to_vcard(entries)] *)
Definition to_vcard (entries : list contact) : str :=
  let blocks := map (fun e => join NL (vcard_block_lines e)) entries in
  join NL blocks.

(** ** Vocabulary of the specification *)

(** [needle in hay]: a message mentions a text when the text occurs in it. *)
Fixpoint contains (hay needle : str) : bool :=
  startswith hay needle
  || match hay with
     | [] => false
     | _ :: hay' => contains hay' needle
     end.

(** Canonical phone form of the glossary: ['+'] followed by one or more ASCII
    digits and nothing else. *)
Definition canonical_phone (s : str) : bool :=
  match s with
  | c :: d :: ds => (c =? 0x2B)%N && forallb is_ascii_digit (d :: ds)
  | _ => false
  end.

(** ['+'] followed by zero or more characters of the class [digit]. *)
Definition plus_then (digit : char -> bool) (s : str) : bool :=
  match s with
  | c :: ds => (c =? 0x2B)%N && forallb digit ds
  | [] => false
  end.

(** The text has no decimal digit outside ASCII: on such a text [\d] and
    [[0-9]] match the same characters. *)
Definition ascii_decimals_only (s : str) : bool :=
  forallb (fun c => implb (is_decimal c) (is_ascii_digit c)) s.

(** Candidate pairs: the raw lines consumed two at a time, in order; a
    trailing unpaired line is no pair. *)
Fixpoint candidate_pairs (lines : list str) : list (str * str) :=
  match lines with
  | name :: phone :: rest => (name, phone) :: candidate_pairs rest
  | _ => []
  end.

(** The contact a candidate pair yields, if its phone normalises. *)
Definition contact_of_pair (p : str * str) : list contact :=
  let norm_phone := normalize_phone (Some (snd p)) in
  if truthy norm_phone then [(fst p, norm_phone)] else [].

(** The warning a candidate pair yields, if its phone does not normalise. *)
Definition warning_of_pair (p : str * str) : list str :=
  if truthy (normalize_phone (Some (snd p))) then []
  else [warn_unrecognized (fst p) (snd p)].

(** [xs] is [ys] with some elements left out, the order kept. *)
Inductive subseq {A : Type} : list A -> list A -> Prop :=
| subseq_nil : subseq [] []
| subseq_skip x xs ys : subseq xs ys -> subseq xs (x :: ys)
| subseq_keep x xs ys : subseq xs ys -> subseq (x :: xs) (x :: ys).

(** The vCard block as the specification words it: five lines, each one
    terminated by a line break. *)
Definition vcard_block_spec (e : contact) : str :=
  concat (map (fun line => line ++ NL) (vcard_block_lines e)).

(** The output document as the specification words it: those blocks with a
    single line break between consecutive ones. *)
Definition to_vcard_spec (entries : list contact) : str :=
  join NL (map vcard_block_spec entries).

(** The block [to_vcard] emits for one contact. *)
Definition vcard_block (e : contact) : str :=
  lit "BEGIN:VCARD" ++ NL ++ lit "VERSION:3.0" ++ NL
    ++ lit "FN:" ++ fst e ++ NL
    ++ lit "TEL;TYPE=CELL:" ++ snd e ++ NL
    ++ lit "END:VCARD".

(** [digitsOnly] of the specification, for a given class of digits: the
    subsequence of the digits of [s], in their order. *)
Definition digits_only (digit : char -> bool) (s : str) : str :=
  filter digit s.

(** The last [n] elements of a list. *)
Definition last_n {A : Type} (n : nat) (l : list A) : list A :=
  skipn (length l - n) l.

(** The warning for the line left over once the lines are paired off. *)
Fixpoint trailing_warning (lines : list str) : list str :=
  match lines with
  | [] => []
  | [name] => [warn_dangling name]
  | _ :: _ :: rest => trailing_warning rest
  end.

(** No range of [t1] meets a range of [t2]. *)
Definition ranges_disjoint (t1 t2 : list (N * N)) : bool :=
  forallb (fun r1 =>
    forallb (fun r2 => (snd r1 <? fst r2)%N || (snd r2 <? fst r1)%N) t2) t1.

(** Inputs of the examples. *)
Definition text_alice_bob : str :=
  lit "Alice" ++ NL ++ lit "+1 555 0100" ++ NL ++ lit "Bob".

Definition text_notaphone : str := lit "Alice" ++ NL ++ lit "notaphone".

Definition text_bare_plus : str := lit "Alice" ++ NL ++ lit "+".

Definition text_plus_and_arabic : str :=
  lit "Alice" ++ NL ++ lit "+" ++ NL ++ lit "Bob" ++ NL ++ lit "٣".

(** ** The handlers of the window

    The handlers of [App] talk to Tk: they read a text widget, show dialogs,
    fill the clipboard and write a file.  Each handler is embedded as a
    function from what Tk hands to it (the text [get("1.0", tk.END)] returns,
    the path the file dialog returns, how the file write ends) to the
    sequence of calls it makes. *)

Inductive event : Type :=
| OutputDelete                          (* output_text.delete("1.0", tk.END) *)
| OutputInsert (text : str)             (* output_text.insert("1.0", text) *)
| ShowInfo (title message : str)        (* messagebox.showinfo *)
| ShowWarning (title message : str)     (* messagebox.showwarning *)
| ShowError (title message : str)       (* messagebox.showerror *)
| ClipboardClear                        (* clipboard_clear() *)
| ClipboardAppend (data : str)          (* clipboard_append(data) *)
| AskSaveAs                             (* filedialog.asksaveasfilename(...) *)
| OpenForWrite (path : str)             (* open(path, "w", encoding="utf-8") *)
| WriteData (data : str).               (* f.write(data) *)

(** How the [try] block of [on_save] ends: the file is written, or [open]
    raises, or [f.write] raises ([exc] is the text of the exception). *)
Inductive save_outcome : Type :=
| Saved
| OpenRaises (exc : str)
| WriteRaises (exc : str).

(** [App.on_convert], [src] being the text of the input widget. *)
Definition on_convert (src : str) : result (list event) :=
  r <- parse_contacts src ;;
  let (entries, warnings) := r in
  let result := to_vcard entries in
  Ok ([OutputDelete; OutputInsert result]
        ++ match warnings with
           | [] => []
           | _ :: _ => [ShowWarning (lit "Предупреждения") (join NL warnings)]
           end).

(** [App.on_copy], [output] being the text of the output widget. *)
Definition on_copy (output : str) : list event :=
  let data := strip output in
  if negb (truthy data) then
    [ShowInfo (lit "Копирование") (lit "Нет данных для копирования")]
  else
    [ClipboardClear; ClipboardAppend data;
     ShowInfo (lit "Копирование")
       (lit "Готово. Результат скопирован в буфер обмена.")].

(** [App.on_save], [output] being the text of the output widget, [path] the
    answer of the file dialog (empty when the user cancels) and [outcome] the
    way the write ends. *)
Definition on_save (output path : str) (outcome : save_outcome)
    : list event :=
  let data := strip output in
  if negb (truthy data) then
    [ShowInfo (lit "Сохранение") (lit "Нет данных для сохранения")]
  else
    AskSaveAs ::
    if negb (truthy path) then []
    else
      match outcome with
      | Saved =>
          [OpenForWrite path; WriteData data;
           ShowInfo (lit "Сохранение") (lit "Файл сохранён: " ++ path)]
      | OpenRaises exc =>
          [OpenForWrite path;
           ShowError (lit "Ошибка")
             (lit "Не удалось сохранить файл" ++ NL ++ exc)]
      | WriteRaises exc =>
          [OpenForWrite path; WriteData data;
           ShowError (lit "Ошибка")
             (lit "Не удалось сохранить файл" ++ NL ++ exc)]
      end.

(** ** Further vocabulary *)

(** The string has no line boundary of [splitlines] in it. *)
Definition no_linebreak (s : str) : bool :=
  forallb (fun c => negb (is_linebreak c)) s.

(** The string is made of blanks only (what [strip] removes). *)
Definition blank (s : str) : bool := forallb is_space s.

(** Name and phone of the contact are free of line boundaries. *)
Definition one_line_contact (e : contact) : bool :=
  no_linebreak (fst e) && no_linebreak (snd e).

(** Every range of [t1] lies within a range of [t2]. *)
Definition ranges_subset (t1 t2 : list (N * N)) : bool :=
  forallb (fun r1 =>
    existsb (fun r2 => (fst r2 <=? fst r1)%N && (snd r1 <=? snd r2)%N) t2) t1.

(** ** Character classes *)

Section CharClasses.

Local Open Scope N_scope.

Lemma in_ranges_true tbl c :
  in_ranges tbl c = true <->
  exists r, In r tbl /\ fst r <= c /\ c <= snd r.
Proof.
  unfold in_ranges. rewrite existsb_exists.
  split; intros [r [Hin Hr]]; exists r; split; auto.
  - apply andb_true_iff in Hr. destruct Hr as [H1 H2].
    apply N.leb_le in H1. apply N.leb_le in H2. auto.
  - destruct Hr as [H1 H2]. apply andb_true_iff.
    split; apply N.leb_le; assumption.
Qed.

Lemma in_ranges_disjoint t1 t2 c :
  ranges_disjoint t1 t2 = true ->
  in_ranges t1 c = true -> in_ranges t2 c = false.
Proof.
  intros Hd H1.
  destruct (in_ranges t2 c) eqn:H2; [exfalso | reflexivity].
  apply in_ranges_true in H1. destruct H1 as [r1 [In1 [L1 U1]]].
  apply in_ranges_true in H2. destruct H2 as [r2 [In2 [L2 U2]]].
  unfold ranges_disjoint in Hd.
  rewrite forallb_forall in Hd. specialize (Hd r1 In1).
  rewrite forallb_forall in Hd. specialize (Hd r2 In2).
  apply orb_true_iff in Hd. destruct Hd as [Hd | Hd];
    apply N.ltb_lt in Hd; lia.
Qed.

Lemma is_ascii_digit_ranges c :
  is_ascii_digit c = in_ranges [(0x30, 0x39)] c.
Proof.
  unfold is_ascii_digit, in_ranges. simpl. now rewrite orb_false_r.
Qed.

Lemma space_not_decimal c : is_space c = true -> is_decimal c = false.
Proof.
  apply in_ranges_disjoint. vm_compute. reflexivity.
Qed.

Lemma decimal_not_space c : is_decimal c = true -> is_space c = false.
Proof.
  apply in_ranges_disjoint. vm_compute. reflexivity.
Qed.

Lemma ascii_digit_decimal c : is_ascii_digit c = true -> is_decimal c = true.
Proof.
  intros H. apply andb_true_iff in H. destruct H as [H1 H2].
  apply N.leb_le in H1. apply N.leb_le in H2.
  apply in_ranges_true. exists (0x30, 0x39). split.
  - left. reflexivity.
  - simpl. split; assumption.
Qed.

Lemma ascii_digit_not_space c : is_ascii_digit c = true -> is_space c = false.
Proof.
  intros H. apply decimal_not_space. now apply ascii_digit_decimal.
Qed.

Lemma ascii_digit_not_plus c : is_ascii_digit c = true -> (c =? 0x2B) = false.
Proof.
  intros H. apply andb_true_iff in H. destruct H as [H1 _].
  apply N.leb_le in H1. apply N.eqb_neq. lia.
Qed.

Lemma plus_not_decimal c : (c =? 0x2B) = true -> is_decimal c = false.
Proof.
  intros H. apply N.eqb_eq in H. subst c. vm_compute. reflexivity.
Qed.

Lemma plus_not_space c : (c =? 0x2B) = true -> is_space c = false.
Proof.
  intros H. apply N.eqb_eq in H. subst c. vm_compute. reflexivity.
Qed.

End CharClasses.

(** ** Facts about [strip], [startswith] and the digit filter *)

Section StripFacts.

Lemma lstrip_split s :
  exists ws, s = ws ++ lstrip s /\ forallb is_space ws = true.
Proof.
  induction s as [|c r IH]; simpl.
  - exists []. auto.
  - destruct (is_space c) eqn:E.
    + destruct IH as [ws [H1 H2]]. exists (c :: ws). simpl.
      rewrite E, H2. split; [f_equal; exact H1 | reflexivity].
    + exists []. auto.
Qed.

Lemma rstrip_split s :
  exists ws, s = rstrip s ++ ws /\ forallb is_space ws = true.
Proof.
  unfold rstrip. destruct (lstrip_split (rev s)) as [ws [H1 H2]].
  exists (rev ws). split.
  - rewrite <- rev_app_distr, <- H1, rev_involutive. reflexivity.
  - rewrite forallb_forall in *. intros x Hx. apply H2.
    apply (proj2 (in_rev ws x)). exact Hx.
Qed.

Lemma strip_split s :
  exists w1 w2, s = w1 ++ strip s ++ w2
                /\ forallb is_space w1 = true /\ forallb is_space w2 = true.
Proof.
  destruct (lstrip_split s) as [w1 [H1 S1]].
  destruct (rstrip_split (lstrip s)) as [w2 [H2 S2]].
  exists w1, w2. unfold strip. rewrite <- H2. auto.
Qed.

Lemma filter_decimal_spaces ws :
  forallb is_space ws = true -> filter is_decimal ws = [].
Proof.
  induction ws as [|c r IH]; simpl; intros H; [reflexivity|].
  apply andb_true_iff in H. destruct H as [Hc Hr].
  rewrite (space_not_decimal c Hc). auto.
Qed.

(** Trimming removes no digit. *)
Lemma digits_strip s : sub_nondigits (strip s) = sub_nondigits s.
Proof.
  unfold sub_nondigits.
  destruct (strip_split s) as [w1 [w2 [H [S1 S2]]]].
  assert (E : filter is_decimal s = filter is_decimal (w1 ++ strip s ++ w2))
    by (f_equal; exact H).
  rewrite E, !filter_app, (filter_decimal_spaces _ S1),
    (filter_decimal_spaces _ S2), app_nil_r.
  reflexivity.
Qed.

Lemma strip_incl s c : In c (strip s) -> In c s.
Proof.
  destruct (strip_split s) as [w1 [w2 [H _]]]. intros Hc.
  rewrite H. apply in_or_app. right. apply in_or_app. left. exact Hc.
Qed.

Lemma lstrip_app_nonspace l c :
  is_space c = false -> lstrip (l ++ [c]) = lstrip l ++ [c].
Proof.
  intros Hc. induction l as [|x r IH]; simpl.
  - rewrite Hc. reflexivity.
  - destruct (is_space x); [exact IH | reflexivity].
Qed.

Lemma rstrip_cons_nonspace c r :
  is_space c = false -> rstrip (c :: r) = c :: rstrip r.
Proof.
  intros Hc. unfold rstrip. simpl rev.
  rewrite (lstrip_app_nonspace _ _ Hc), rev_app_distr. reflexivity.
Qed.

Lemma rstrip_nospace s :
  forallb (fun c => negb (is_space c)) s = true -> rstrip s = s.
Proof.
  induction s as [|c r IH]; simpl; intros H; [reflexivity|].
  apply andb_true_iff in H. destruct H as [Hc Hr].
  apply negb_true_iff in Hc.
  rewrite (rstrip_cons_nonspace _ _ Hc), (IH Hr). reflexivity.
Qed.

Lemma strip_nospace s :
  forallb (fun c => negb (is_space c)) s = true -> strip s = s.
Proof.
  intros H. unfold strip.
  assert (L : lstrip s = s).
  { destruct s as [|c r]; [reflexivity|]. simpl in *.
    apply andb_true_iff in H. destruct H as [Hc _].
    apply negb_true_iff in Hc. rewrite Hc. reflexivity. }
  rewrite L. now apply rstrip_nospace.
Qed.

Lemma startswith_1 s x :
  startswith s [x] = match s with [] => false | y :: _ => (x =? y)%N end.
Proof.
  destruct s as [|y r]; simpl; [reflexivity|].
  destruct r; apply andb_true_r.
Qed.

(** A text that starts with ['+'] still does once trimmed. *)
Lemma strip_keeps_plus s :
  startswith s (lit "+") = true -> startswith (strip s) (lit "+") = true.
Proof.
  change (lit "+") with [0x2B%N]. rewrite !startswith_1.
  destruct s as [|c r]; [discriminate|]. intros H.
  assert (Hc : is_space c = false)
    by (apply plus_not_space; now rewrite N.eqb_sym).
  unfold strip. simpl lstrip. rewrite Hc.
  rewrite (rstrip_cons_nonspace _ _ Hc). exact H.
Qed.

Lemma filter_ascii_decimals_only s :
  ascii_decimals_only s = true ->
  filter is_decimal s = filter is_ascii_digit s.
Proof.
  induction s as [|c r IH]; simpl; intros H; [reflexivity|].
  apply andb_true_iff in H. destruct H as [Hc Hr].
  rewrite (IH Hr).
  destruct (is_decimal c) eqn:D, (is_ascii_digit c) eqn:A;
    try reflexivity; try discriminate.
  apply ascii_digit_decimal in A. congruence.
Qed.

Lemma forallb_filter_same {A : Type} (f : A -> bool) l :
  forallb f (filter f l) = true.
Proof.
  induction l as [|x r IH]; simpl; [reflexivity|].
  destruct (f x) eqn:E; simpl; [rewrite E|]; exact IH.
Qed.

Lemma forallb_tl {A : Type} (f : A -> bool) l :
  forallb f l = true -> forallb f (tl l) = true.
Proof.
  destruct l; simpl; [auto|]. intros H.
  apply andb_true_iff in H. tauto.
Qed.

End StripFacts.

(** ** [normalize_phone], branch by branch *)

Section NormalizeFacts.

Lemma normalize_phone_unfold raw :
  normalize_phone (Some raw) =
  let digits := sub_nondigits raw in
  if startswith (strip raw) (lit "+") then 0x2B%N :: digits
  else if (length digits =? 11)%nat && startswith digits (lit "8")
  then 0x2B%N :: 0x37%N :: tl digits
  else if truthy digits then 0x2B%N :: digits else [].
Proof.
  unfold normalize_phone. rewrite digits_strip. cbv zeta.
  change (lit "+") with [0x2B%N]. change (lit "+7") with [0x2B%N; 0x37%N].
  unfold slice_from_1. simpl app.
  destruct (startswith (strip raw) [0x2B%N]); [reflexivity|].
  destruct ((length (sub_nondigits raw) =? 11)%nat
            && startswith (sub_nondigits raw) (lit "8")); [reflexivity|].
  destruct ((length (sub_nondigits raw) =? 11)%nat
            && startswith (sub_nondigits raw) (lit "7")) eqn:E7;
    [|reflexivity].
  apply andb_true_iff in E7. destruct E7 as [L _]. apply Nat.eqb_eq in L.
  destruct (sub_nondigits raw); [discriminate | reflexivity].
Qed.

(** The three possible shapes of a result. *)
Lemma normalize_phone_cases raw :
  let digits := sub_nondigits raw in
  (normalize_phone (Some raw) = [] /\ digits = []
     /\ startswith (strip raw) (lit "+") = false)
  \/ normalize_phone (Some raw) = 0x2B%N :: digits
  \/ normalize_phone (Some raw) = 0x2B%N :: 0x37%N :: tl digits.
Proof.
  rewrite normalize_phone_unfold. cbv zeta.
  destruct (startswith (strip raw) (lit "+")); [auto|].
  destruct ((length (sub_nondigits raw) =? 11)%nat
            && startswith (sub_nondigits raw) (lit "8")); [auto|].
  destruct (sub_nondigits raw); simpl; auto.
Qed.

End NormalizeFacts.

(** ** The pairing loop in closed form *)

Section LoopFacts.

(** Induction two lines at a time, the way the loop walks the lines. *)
Lemma two_step_ind (A : Type) (P : list A -> Prop) :
  P [] -> (forall x, P [x]) -> (forall x y l, P l -> P (x :: y :: l)) ->
  forall l, P l.
Proof.
  intros H0 H1 H2 l.
  assert (H : P l /\ forall x, P (x :: l)).
  { induction l as [|y l [IH1 IH2]].
    - split; auto.
    - split; [apply IH2 | intros x; apply H2; exact IH1]. }
  apply H.
Qed.

Lemma skipn_nth_cons (A : Type) (l : list A) i x :
  nth_error l i = Some x -> skipn i l = x :: skipn (S i) l.
Proof.
  revert i. induction l as [|y l IH]; intros [|i] H; simpl in *;
    try discriminate.
  - injection H as ->. reflexivity.
  - apply IH. exact H.
Qed.

Lemma nth_error_in_range (A : Type) (l : list A) i :
  i < length l -> exists x, nth_error l i = Some x.
Proof.
  intros H. destruct (nth_error l i) eqn:E; [eauto|].
  apply nth_error_None in E. lia.
Qed.

(** From any loop state with enough fuel the loop returns, and what it adds
    to [pairs] and [warnings] is determined by the lines from [i] on. *)
Lemma pair_loop_closed fuel : forall lines i pairs warnings,
  length lines - i < fuel ->
  pair_loop fuel lines i pairs warnings =
  Ok (pairs ++ flat_map contact_of_pair (candidate_pairs (skipn i lines)),
      warnings ++ flat_map warning_of_pair (candidate_pairs (skipn i lines))
        ++ trailing_warning (skipn i lines)).
Proof.
  induction fuel as [|fuel IH]; intros lines i pairs warnings Hf; [lia|].
  cbn [pair_loop].
  destruct (i <? length lines) eqn:Hi.
  - apply Nat.ltb_lt in Hi.
    destruct (nth_error_in_range _ lines i Hi) as [name Hn].
    unfold getitem at 1. rewrite Hn. cbn [bind].
    rewrite (skipn_nth_cons _ _ _ _ Hn).
    destruct (i + 1 <? length lines) eqn:Hi1.
    + apply Nat.ltb_lt in Hi1.
      destruct (nth_error_in_range _ lines (i + 1) Hi1) as [phone Hp].
      unfold getitem. rewrite Hp. cbn [bind].
      replace (S i) with (i + 1) by lia.
      rewrite (skipn_nth_cons _ _ _ _ Hp).
      replace (S (i + 1)) with (i + 2) by lia.
      cbn [candidate_pairs flat_map trailing_warning].
      unfold contact_of_pair at 1, warning_of_pair at 1. cbn [fst snd].
      destruct (truthy (normalize_phone (Some phone))); cbn [negb];
        rewrite IH by lia; rewrite <- !app_assoc; reflexivity.
    + apply Nat.ltb_ge in Hi1.
      rewrite (skipn_all2 lines) by lia.
      cbn. rewrite app_nil_r. reflexivity.
  - apply Nat.ltb_ge in Hi.
    rewrite (skipn_all2 lines) by lia.
    cbn. rewrite !app_nil_r. reflexivity.
Qed.

Lemma parse_lines_closed lines :
  parse_lines lines =
  Ok (flat_map contact_of_pair (candidate_pairs lines),
      flat_map warning_of_pair (candidate_pairs lines)
        ++ trailing_warning lines).
Proof.
  unfold parse_lines. rewrite pair_loop_closed by lia. reflexivity.
Qed.

Lemma candidate_pairs_app pre rest :
  Nat.even (length pre) = true ->
  candidate_pairs (pre ++ rest) = candidate_pairs pre ++ candidate_pairs rest.
Proof.
  induction pre as [| x | x y l IH] using two_step_ind; intros H.
  - reflexivity.
  - discriminate.
  - cbn. rewrite IH by exact H. reflexivity.
Qed.

Lemma trailing_warning_app pre rest :
  Nat.even (length pre) = true ->
  trailing_warning (pre ++ rest) = trailing_warning rest.
Proof.
  induction pre as [| x | x y l IH] using two_step_ind; intros H.
  - reflexivity.
  - discriminate.
  - cbn. apply IH. exact H.
Qed.

Lemma trailing_warning_even pre :
  Nat.even (length pre) = true -> trailing_warning pre = [].
Proof.
  intros H. rewrite <- (app_nil_r pre).
  rewrite trailing_warning_app by exact H. reflexivity.
Qed.

(** A list of odd length is a list of even length followed by one element. *)
Lemma odd_length_split (A : Type) (l : list A) :
  Nat.odd (length l) = true ->
  exists pre last, l = pre ++ [last] /\ Nat.even (length pre) = true.
Proof.
  induction l as [| x | x y l IH] using two_step_ind; intros H.
  - discriminate.
  - exists [], x. auto.
  - destruct (IH H) as [pre [last [E Hp]]].
    exists (x :: y :: pre), last. split; [rewrite E; reflexivity | exact Hp].
Qed.

End LoopFacts.

(** ** Helper facts for the claims *)

Section ParseFacts.

Lemma startswith_app n b : startswith (n ++ b) n = true.
Proof.
  induction n as [|x n IH]; simpl; [reflexivity|].
  rewrite N.eqb_refl. exact IH.
Qed.

Lemma contains_of_startswith h n :
  startswith h n = true -> contains h n = true.
Proof.
  intros H. destruct h; cbn [contains]; rewrite H; reflexivity.
Qed.

Lemma contains_app a n b : contains (a ++ n ++ b) n = true.
Proof.
  induction a as [|x a IH].
  - apply contains_of_startswith. exact (startswith_app n b).
  - cbn [app contains]. rewrite IH. apply orb_true_r.
Qed.

Lemma warn_dangling_mentions name :
  contains (warn_dangling name) name = true.
Proof. unfold warn_dangling. apply contains_app. Qed.

Lemma warn_unrecognized_mentions name phone :
  contains (warn_unrecognized name phone) name = true
  /\ contains (warn_unrecognized name phone) phone = true.
Proof.
  unfold warn_unrecognized. split.
  - apply contains_app.
  - rewrite (app_assoc _ name), (app_assoc _ (lit "' (строка: '")).
    apply contains_app.
Qed.

(** The two kinds of warning differ from their first character on. *)
Lemma warn_kinds_differ name phone name' :
  warn_unrecognized name phone <> warn_dangling name'.
Proof.
  intros H. apply (f_equal (hd 0%N)) in H.
  vm_compute in H. discriminate.
Qed.

Lemma in_warning_of_pairs w pairs :
  In w (flat_map warning_of_pair pairs) ->
  exists name phone, In (name, phone) pairs
                     /\ w = warn_unrecognized name phone.
Proof.
  intros H. apply in_flat_map in H. destruct H as [[name phone] [Hin Hw]].
  exists name, phone. split; [exact Hin|].
  unfold warning_of_pair in Hw. cbn [fst snd] in Hw.
  destruct (truthy (normalize_phone (Some phone))); [destruct Hw|].
  destruct Hw as [Hw | []]. symmetry. exact Hw.
Qed.

(** The result of the loop around one candidate pair: what precedes the pair
    and what follows it are processed independently of it. *)
Lemma parse_lines_around pre name phone post :
  Nat.even (length pre) = true ->
  exists cs1 ws1 cs2 ws2,
    parse_lines pre = Ok (cs1, ws1) /\ parse_lines post = Ok (cs2, ws2)
    /\ parse_lines (pre ++ name :: phone :: post) =
       Ok (cs1 ++ contact_of_pair (name, phone) ++ cs2,
           ws1 ++ warning_of_pair (name, phone) ++ ws2).
Proof.
  intros He.
  exists (flat_map contact_of_pair (candidate_pairs pre)),
         (flat_map warning_of_pair (candidate_pairs pre)),
         (flat_map contact_of_pair (candidate_pairs post)),
         (flat_map warning_of_pair (candidate_pairs post)
            ++ trailing_warning post).
  rewrite !parse_lines_closed.
  rewrite (trailing_warning_even _ He), app_nil_r.
  rewrite (candidate_pairs_app _ _ He), (trailing_warning_app _ _ He).
  cbn [candidate_pairs trailing_warning].
  rewrite !flat_map_app. cbn [flat_map].
  rewrite <- !app_assoc. auto.
Qed.

Lemma subseq_refl (A : Type) (l : list A) : subseq l l.
Proof. induction l; constructor; assumption. Qed.

Lemma contacts_names_subseq pairs :
  subseq (map fst (flat_map contact_of_pair pairs)) (map fst pairs).
Proof.
  induction pairs as [|[name phone] pairs IH]; cbn [flat_map map].
  - constructor.
  - unfold contact_of_pair at 1. cbn [fst snd].
    destruct (truthy (normalize_phone (Some phone))); cbn [app map fst].
    + apply subseq_keep. exact IH.
    + apply subseq_skip. exact IH.
Qed.

Lemma pair_names_subseq lines :
  subseq (map fst (candidate_pairs lines)) lines.
Proof.
  induction lines as [| x | x y l IH] using two_step_ind; cbn.
  - constructor.
  - apply subseq_skip. constructor.
  - apply subseq_keep. apply subseq_skip. exact IH.
Qed.

Lemma in_candidate_pairs name phone lines :
  In (name, phone) (candidate_pairs lines) -> In name lines /\ In phone lines.
Proof.
  induction lines as [| x | x y l IH] using two_step_ind; cbn.
  - intros [].
  - intros [].
  - intros [H | H].
    + injection H as -> ->. auto.
    + destruct (IH H). auto.
Qed.

(** Every character of a line comes from the text. *)
Lemma splitlines_from_incl n : forall s cur line c,
  length s <= n ->
  In line (splitlines_from cur s) -> In c line -> In c cur \/ In c s.
Proof.
  induction n as [|n IH]; intros s cur line c Hn Hl Hc.
  - destruct s; [|simpl in Hn; lia].
    simpl in Hl. destruct cur; [destruct Hl|].
    destruct Hl as [<- | []]. left. apply in_rev. exact Hc.
  - destruct s as [|c0 rest].
    + simpl in Hl. destruct cur; [destruct Hl|].
      destruct Hl as [<- | []]. left. apply in_rev. exact Hc.
    + simpl in Hn. cbn [splitlines_from] in Hl.
      destruct (is_linebreak c0).
      * destruct rest as [|c' rest'].
        -- cbn in Hl. destruct Hl as [<- | []].
           left. apply in_rev. exact Hc.
        -- destruct ((c0 =? CR)%N && (c' =? LF)%N);
             (destruct Hl as [<- | Hl];
              [ left; apply in_rev; exact Hc
              | apply IH with (c := c) in Hl;
                [ destruct Hl as [[] | Hl]; right; simpl; simpl in Hl; tauto
                | simpl in *; lia
                | exact Hc ] ]).
      * apply IH with (c := c) in Hl; [| lia | exact Hc].
        destruct Hl as [[<- | Hl] | Hl]; simpl; auto.
Qed.

Lemma raw_lines_incl text line c :
  In line (raw_lines text) -> In c line -> In c text.
Proof.
  unfold raw_lines. intros Hl Hc.
  apply filter_In in Hl. destruct Hl as [Hl _].
  apply in_map_iff in Hl. destruct Hl as [l0 [<- Hl0]].
  apply strip_incl in Hc.
  destruct (splitlines_from_incl (length text) text [] l0 c
              (Nat.le_refl _) Hl0 Hc) as [[] | H].
  exact H.
Qed.

Lemma raw_lines_nonempty text line :
  In line (raw_lines text) -> line <> [].
Proof.
  unfold raw_lines. intros Hl. apply filter_In in Hl.
  destruct Hl as [_ Ht]. intros ->. discriminate.
Qed.

Lemma ascii_decimals_only_incl s t :
  (forall c, In c s -> In c t) ->
  ascii_decimals_only t = true -> ascii_decimals_only s = true.
Proof.
  unfold ascii_decimals_only. rewrite !forallb_forall. auto.
Qed.

(** A non-empty result of [normalize_phone] is ['+'] followed by decimal
    digits, and by ASCII digits when the input has no other decimal digit. *)
Lemma normalize_phone_shape raw :
  normalize_phone (Some raw) = []
  \/ (plus_then is_decimal (normalize_phone (Some raw)) = true
      /\ (ascii_decimals_only raw = true ->
          plus_then is_ascii_digit (normalize_phone (Some raw)) = true)).
Proof.
  pose proof (forallb_filter_same is_decimal raw) as Hd.
  fold (sub_nondigits raw) in Hd.
  assert (Ha : ascii_decimals_only raw = true ->
               forallb is_ascii_digit (sub_nondigits raw) = true).
  { intros H. unfold sub_nondigits.
    rewrite (filter_ascii_decimals_only _ H). apply forallb_filter_same. }
  destruct (normalize_phone_cases raw) as [[H _] | [H | H]];
    [left; exact H | right | right]; rewrite H; cbn [plus_then forallb].
  - rewrite N.eqb_refl. split; [exact Hd | exact Ha].
  - rewrite N.eqb_refl.
    change (is_decimal 55%N) with true.
    change (is_ascii_digit 55%N) with true. cbn [andb]. split.
    + apply forallb_tl. exact Hd.
    + intros Hx. apply forallb_tl. apply Ha. exact Hx.
Qed.

End ParseFacts.

(** ** The properties of the specification *)

(** C7: for every input text, the empty one included, [parse_contacts] returns
    normally a contacts list and a warnings list: it raises no exception and
    its loop ends (more fuel than [len(lines) + 1] changes nothing); for the
    empty text both lists are empty. *)
Theorem parse_contacts_total :
  (forall text, exists contacts warnings,
      parse_contacts text = Ok (contacts, warnings))
  /\ (forall text extra,
        pair_loop (S (length (raw_lines text)) + extra) (raw_lines text) 0 [] []
        = parse_contacts text)
  /\ parse_contacts (lit "") = Ok ([], []).
Proof.
  split; [|split].
  - intros text. unfold parse_contacts. cbv zeta.
    rewrite parse_lines_closed. eauto.
  - intros text extra. unfold parse_contacts, parse_lines. cbv zeta.
    rewrite !pair_loop_closed by lia. reflexivity.
  - reflexivity.
Qed.

(** C3: when the trimmed, non-empty lines of the input are odd in number,
    [parse_contacts] processes the complete pairs before the last line, then
    emits one warning that mentions that last line and stops: the contacts are
    those of the preceding pairs, the dangling warning is the last warning and
    the only one of its kind.  For "Alice\n+1 555 0100\nBob" the result is the
    contact ("Alice", "+15550100") and one warning mentioning "Bob". *)
Theorem dangling_name_warned :
  (forall text,
      Nat.odd (length (raw_lines text)) = true ->
      exists pre last contacts warnings,
        raw_lines text = pre ++ [last]
        /\ parse_lines pre = Ok (contacts, warnings)
        /\ contacts = flat_map contact_of_pair (candidate_pairs pre)
        /\ parse_contacts text = Ok (contacts, warnings ++ [warn_dangling last])
        /\ contains (warn_dangling last) last = true
        /\ (forall w, In w warnings -> forall name, w <> warn_dangling name))
  /\ parse_contacts text_alice_bob
     = Ok ([(lit "Alice", lit "+15550100")], [warn_dangling (lit "Bob")])
  /\ contains (warn_dangling (lit "Bob")) (lit "Bob") = true.
Proof.
  split; [|split].
  - intros text Hodd.
    destruct (odd_length_split _ _ Hodd) as [pre [last [E He]]].
    exists pre, last,
      (flat_map contact_of_pair (candidate_pairs pre)),
      (flat_map warning_of_pair (candidate_pairs pre)).
    split; [exact E|].
    split; [rewrite parse_lines_closed, (trailing_warning_even _ He),
              app_nil_r; reflexivity|].
    split; [reflexivity|].
    split.
    + unfold parse_contacts. cbv zeta. rewrite E, parse_lines_closed.
      rewrite (candidate_pairs_app _ _ He), (trailing_warning_app _ _ He).
      cbn [candidate_pairs trailing_warning]. rewrite app_nil_r.
      reflexivity.
    + split; [apply warn_dangling_mentions|].
      intros w Hw name.
      destruct (in_warning_of_pairs _ _ Hw) as [n [p [_ ->]]].
      apply warn_kinds_differ.
  - vm_compute. reflexivity.
  - apply warn_dangling_mentions.
Qed.

Lemma dangling_name_warned_witness :
  Nat.odd (length (raw_lines text_alice_bob)) = true
  /\ exists pre last contacts warnings,
       raw_lines text_alice_bob = pre ++ [last]
       /\ parse_lines pre = Ok (contacts, warnings)
       /\ contacts = flat_map contact_of_pair (candidate_pairs pre)
       /\ parse_contacts text_alice_bob
          = Ok (contacts, warnings ++ [warn_dangling last])
       /\ contains (warn_dangling last) last = true
       /\ (forall w, In w warnings -> forall name, w <> warn_dangling name).
Proof.
  split; [vm_compute; reflexivity|].
  apply (proj1 dangling_name_warned text_alice_bob).
  vm_compute. reflexivity.
Defined.

(** C4: a candidate pair whose phone line normalises to the empty string
    yields a warning that contains the name and the raw phone text, yields no
    contact, and the pairs after it are processed as usual.  For
    "Alice\nnotaphone" the result is no contact and one warning mentioning
    "Alice" and "notaphone". *)
Theorem unrecognized_phone_warned :
  (forall text pre name phone post,
      raw_lines text = pre ++ name :: phone :: post ->
      Nat.even (length pre) = true ->
      normalize_phone (Some phone) = [] ->
      exists cs1 ws1 cs2 ws2,
        parse_lines pre = Ok (cs1, ws1)
        /\ parse_lines post = Ok (cs2, ws2)
        /\ parse_contacts text
           = Ok (cs1 ++ cs2, ws1 ++ warn_unrecognized name phone :: ws2)
        /\ contains (warn_unrecognized name phone) name = true
        /\ contains (warn_unrecognized name phone) phone = true)
  /\ parse_contacts text_notaphone
     = Ok ([], [warn_unrecognized (lit "Alice") (lit "notaphone")])
  /\ contains (warn_unrecognized (lit "Alice") (lit "notaphone")) (lit "Alice")
     = true
  /\ contains (warn_unrecognized (lit "Alice") (lit "notaphone"))
       (lit "notaphone") = true.
Proof.
  split; [|split; [|apply warn_unrecognized_mentions]].
  - intros text pre name phone post E He Hn.
    destruct (parse_lines_around pre name phone post He)
      as [cs1 [ws1 [cs2 [ws2 [H1 [H2 H]]]]]].
    exists cs1, ws1, cs2, ws2.
    split; [exact H1|]. split; [exact H2|].
    split; [|apply warn_unrecognized_mentions].
    unfold parse_contacts. cbv zeta. rewrite E, H.
    unfold contact_of_pair, warning_of_pair. cbn [fst snd].
    rewrite Hn. reflexivity.
  - vm_compute. reflexivity.
Qed.

Lemma unrecognized_phone_warned_witness :
  (raw_lines text_notaphone = [] ++ lit "Alice" :: lit "notaphone" :: []
   /\ Nat.even (length (@nil str)) = true
   /\ normalize_phone (Some (lit "notaphone")) = [])
  /\ exists cs1 ws1 cs2 ws2,
       parse_lines [] = Ok (cs1, ws1)
       /\ parse_lines [] = Ok (cs2, ws2)
       /\ parse_contacts text_notaphone
          = Ok (cs1 ++ cs2,
                ws1 ++ warn_unrecognized (lit "Alice") (lit "notaphone") :: ws2)
       /\ contains (warn_unrecognized (lit "Alice") (lit "notaphone"))
            (lit "Alice") = true
       /\ contains (warn_unrecognized (lit "Alice") (lit "notaphone"))
            (lit "notaphone") = true.
Proof.
  split.
  - repeat split; vm_compute; reflexivity.
  - apply (proj1 unrecognized_phone_warned text_notaphone []
             (lit "Alice") (lit "notaphone") []);
      vm_compute; reflexivity.
Defined.

(** C8: the contacts [parse_contacts] returns are the contacts of the
    candidate pairs of the input, in pairing order (their names are a
    subsequence of the name lines, which are a subsequence of the lines), the
    warnings play no part in it, and [to_vcard] emits the blocks of these
    contacts one for one and in the same order. *)
Theorem order_preserved text :
  exists contacts warnings,
    parse_contacts text = Ok (contacts, warnings)
    /\ contacts = flat_map contact_of_pair (candidate_pairs (raw_lines text))
    /\ subseq (map fst contacts) (map fst (candidate_pairs (raw_lines text)))
    /\ subseq (map fst (candidate_pairs (raw_lines text))) (raw_lines text)
    /\ to_vcard contacts = join NL (map vcard_block contacts)
    /\ length (map vcard_block contacts) = length contacts
    /\ (forall k, nth_error (map vcard_block contacts) k
                  = option_map vcard_block (nth_error contacts k)).
Proof.
  unfold parse_contacts. cbv zeta. rewrite parse_lines_closed.
  eexists. eexists. split; [reflexivity|].
  split; [reflexivity|].
  split; [apply contacts_names_subseq|].
  split; [apply pair_names_subseq|].
  split; [|split].
  - unfold to_vcard. cbv zeta. f_equal. apply map_ext.
    intros [name phone]. reflexivity.
  - apply length_map.
  - intros k. apply nth_error_map.
Qed.

Lemma join_snoc sep l x :
  join sep (l ++ [x])
  = match l with [] => x | _ :: _ => join sep l ++ sep ++ x end.
Proof.
  induction l as [|a l IH]; [reflexivity|].
  destruct l as [|b l]; [reflexivity|].
  change (join sep ((a :: b :: l) ++ [x]))
    with (a ++ sep ++ join sep ((b :: l) ++ [x])).
  rewrite IH. cbn [join]. rewrite <- !app_assoc. reflexivity.
Qed.

Lemma to_vcard_blocks entries :
  to_vcard entries = join NL (map vcard_block entries).
Proof.
  unfold to_vcard. cbv zeta. f_equal. apply map_ext.
  intros [name phone]. reflexivity.
Qed.

Lemma filter_all {A : Type} (f : A -> bool) l :
  forallb f l = true -> filter f l = l.
Proof.
  induction l as [|x l IH]; simpl; intros H; [reflexivity|].
  apply andb_true_iff in H. destruct H as [Hx Hl].
  rewrite Hx, (IH Hl). reflexivity.
Qed.

(** C1, as the code has it: every contact returned by [parse_contacts] has a
    non-empty name and a phone made of ['+'] followed by zero or more decimal
    digits (the characters [\d] matches) and nothing else; the digits are
    ASCII digits when the input text has no decimal digit outside ASCII. *)
Theorem contacts_wellformed text contacts warnings name phone :
  parse_contacts text = Ok (contacts, warnings) ->
  In (name, phone) contacts ->
  name <> []
  /\ plus_then is_decimal phone = true
  /\ (ascii_decimals_only text = true -> plus_then is_ascii_digit phone = true).
Proof.
  unfold parse_contacts. cbv zeta. rewrite parse_lines_closed. intros H Hin.
  injection H as <- _.
  apply in_flat_map in Hin. destruct Hin as [[n p] [Hp Hc]].
  unfold contact_of_pair in Hc. cbn [fst snd] in Hc.
  destruct (truthy (normalize_phone (Some p))) eqn:T; [|destruct Hc].
  destruct Hc as [Hc | []]. injection Hc as -> <-.
  apply in_candidate_pairs in Hp. destruct Hp as [Hn Hph].
  split; [eapply raw_lines_nonempty; eauto|].
  destruct (normalize_phone_shape p) as [E | [Hd Ha]].
  - rewrite E in T. discriminate.
  - split; [exact Hd|]. intros Hx. apply Ha.
    eapply ascii_decimals_only_incl; [|exact Hx].
    intros c Hc. eapply raw_lines_incl; eauto.
Qed.

Lemma contacts_wellformed_witness :
  (parse_contacts text_alice_bob
   = Ok ([(lit "Alice", lit "+15550100")], [warn_dangling (lit "Bob")])
   /\ In (lit "Alice", lit "+15550100") [(lit "Alice", lit "+15550100")])
  /\ lit "Alice" <> []
  /\ plus_then is_decimal (lit "+15550100") = true
  /\ (ascii_decimals_only text_alice_bob = true ->
      plus_then is_ascii_digit (lit "+15550100") = true).
Proof.
  split.
  - split; [vm_compute; reflexivity | left; reflexivity].
  - apply (contacts_wellformed text_alice_bob
             [(lit "Alice", lit "+15550100")] [warn_dangling (lit "Bob")]
             (lit "Alice") (lit "+15550100"));
      [vm_compute; reflexivity | left; reflexivity].
Defined.

(** C1 fails as stated: for the lines "Alice", "+", "Bob", "٣" the code
    returns the contacts ("Alice", "+") and ("Bob", "+٣"), and neither phone is
    in canonical form: the first has no digit, the second a digit that is not
    an ASCII digit. *)
Lemma contacts_wellformed_counterexample :
  parse_contacts text_plus_and_arabic
  = Ok ([(lit "Alice", lit "+"); (lit "Bob", lit "+٣")], [])
  /\ canonical_phone (lit "+") = false
  /\ canonical_phone (lit "+٣") = false.
Proof. repeat split; vm_compute; reflexivity. Qed.

(** C2, as the code has it: the output is the blocks of the contacts, in list
    order, with a single line break between consecutive blocks; a block is the
    five lines BEGIN:VCARD, VERSION:3.0, FN:<name>, TEL;TYPE=CELL:<phone>,
    END:VCARD with a single line break between consecutive lines, so that the
    END:VCARD of the last block ends the output, with no line break after it;
    the empty list gives the empty string. *)
Theorem to_vcard_layout :
  to_vcard [] = []
  /\ (forall e, to_vcard [e] = vcard_block e)
  /\ (forall e e' es,
        to_vcard (e :: e' :: es) = vcard_block e ++ NL ++ to_vcard (e' :: es))
  /\ (forall es, to_vcard es = join NL (map vcard_block es))
  /\ (forall e, vcard_block e = join NL (vcard_block_lines e))
  /\ (forall es e, exists p, to_vcard (es ++ [e]) = p ++ lit "END:VCARD").
Proof.
  split; [reflexivity|].
  split; [intros e; apply to_vcard_blocks|].
  split; [intros e e' es; rewrite !to_vcard_blocks; reflexivity|].
  split; [apply to_vcard_blocks|].
  split; [intros [name phone]; reflexivity|].
  intros es e. rewrite to_vcard_blocks, map_app. cbn [map].
  rewrite join_snoc.
  set (body := lit "BEGIN:VCARD" ++ NL ++ lit "VERSION:3.0" ++ NL
                 ++ lit "FN:" ++ fst e ++ NL
                 ++ lit "TEL;TYPE=CELL:" ++ snd e ++ NL).
  assert (Hb : vcard_block e = body ++ lit "END:VCARD").
  { unfold vcard_block, body. rewrite <- !app_assoc. reflexivity. }
  rewrite Hb.
  destruct (map vcard_block es) as [|b bs].
  - exists body. reflexivity.
  - exists (join NL (b :: bs) ++ NL ++ body).
    rewrite <- !app_assoc. reflexivity.
Qed.

(** C2 fails as stated: with every line of a block terminated by a line break
    the output for one contact would end in a line break; the code's output
    ends in END:VCARD. *)
Lemma to_vcard_layout_counterexample :
  to_vcard [(lit "A", lit "+1")] <> to_vcard_spec [(lit "A", lit "+1")]
  /\ to_vcard_spec [(lit "A", lit "+1")] = to_vcard [(lit "A", lit "+1")] ++ NL
  /\ last (to_vcard [(lit "A", lit "+1")]) 0%N <> LF.
Proof.
  split; [|split].
  - vm_compute. discriminate.
  - vm_compute. reflexivity.
  - vm_compute. discriminate.
Qed.

(** C5, as the code has it: for every string [s] that starts with ['+'],
    [normalize_phone s] is "+" followed by the decimal digits of [s] (the
    characters [\d] matches) in their order; these are the ASCII digits of [s]
    when [s] has no decimal digit outside ASCII; with no digit at all the
    result is the bare "+". *)
Theorem normalize_keeps_plus s :
  startswith s (lit "+") = true ->
  normalize_phone (Some s) = lit "+" ++ digits_only is_decimal s
  /\ (ascii_decimals_only s = true ->
      normalize_phone (Some s) = lit "+" ++ digits_only is_ascii_digit s)
  /\ (digits_only is_decimal s = [] -> normalize_phone (Some s) = lit "+").
Proof.
  intros H.
  assert (E : normalize_phone (Some s) = lit "+" ++ digits_only is_decimal s).
  { rewrite normalize_phone_unfold. cbv zeta.
    rewrite (strip_keeps_plus _ H). reflexivity. }
  split; [exact E|]. split.
  - intros Ha. rewrite E. unfold digits_only.
    rewrite (filter_ascii_decimals_only _ Ha). reflexivity.
  - intros Hd. rewrite E, Hd. reflexivity.
Qed.

Lemma normalize_keeps_plus_witness :
  startswith (lit "+7 925 198-90-91") (lit "+") = true
  /\ normalize_phone (Some (lit "+7 925 198-90-91"))
     = lit "+" ++ digits_only is_decimal (lit "+7 925 198-90-91")
  /\ (ascii_decimals_only (lit "+7 925 198-90-91") = true ->
      normalize_phone (Some (lit "+7 925 198-90-91"))
      = lit "+" ++ digits_only is_ascii_digit (lit "+7 925 198-90-91"))
  /\ (digits_only is_decimal (lit "+7 925 198-90-91") = [] ->
      normalize_phone (Some (lit "+7 925 198-90-91")) = lit "+").
Proof.
  split; [vm_compute; reflexivity|].
  apply (normalize_keeps_plus (lit "+7 925 198-90-91")).
  vm_compute. reflexivity.
Defined.

(** C5 fails as stated: "+٣" starts with ['+'] and has no ASCII digit, yet the
    code keeps the Arabic-Indic digit and returns "+٣", not "+". *)
Lemma normalize_keeps_plus_counterexample :
  startswith (lit "+٣") (lit "+") = true
  /\ normalize_phone (Some (lit "+٣")) = lit "+٣"
  /\ lit "+" ++ digits_only is_ascii_digit (lit "+٣") = lit "+"
  /\ normalize_phone (Some (lit "+٣"))
     <> lit "+" ++ digits_only is_ascii_digit (lit "+٣").
Proof.
  repeat split; try (vm_compute; reflexivity).
  vm_compute. discriminate.
Qed.

(** C6, as the code has it: when the trimmed input does not start with ['+']
    and its decimal digits (the characters [\d] matches) are exactly 11 and
    begin with '8', the result is "+7" followed by the last 10 of them; the
    same holds of the ASCII digits when the input has no decimal digit outside
    ASCII; [normalize_phone "89251989091"] is "+79251989091". *)
Theorem normalize_trunk_prefix :
  (forall s,
      startswith (strip s) (lit "+") = false ->
      length (digits_only is_decimal s) = 11 ->
      startswith (digits_only is_decimal s) (lit "8") = true ->
      normalize_phone (Some s)
      = lit "+7" ++ last_n 10 (digits_only is_decimal s)
      /\ length (last_n 10 (digits_only is_decimal s)) = 10)
  /\ (forall s,
        startswith (strip s) (lit "+") = false ->
        ascii_decimals_only s = true ->
        length (digits_only is_ascii_digit s) = 11 ->
        startswith (digits_only is_ascii_digit s) (lit "8") = true ->
        normalize_phone (Some s)
        = lit "+7" ++ last_n 10 (digits_only is_ascii_digit s))
  /\ normalize_phone (Some (lit "89251989091")) = lit "+79251989091".
Proof.
  assert (G : forall s,
      startswith (strip s) (lit "+") = false ->
      length (digits_only is_decimal s) = 11 ->
      startswith (digits_only is_decimal s) (lit "8") = true ->
      normalize_phone (Some s)
      = lit "+7" ++ last_n 10 (digits_only is_decimal s)
      /\ length (last_n 10 (digits_only is_decimal s)) = 10).
  { intros s Hp Hl H8. rewrite normalize_phone_unfold. cbv zeta.
    unfold digits_only in *. unfold sub_nondigits.
    rewrite Hp, Hl, H8. cbn [Nat.eqb andb].
    unfold last_n. rewrite Hl. cbn [Nat.sub].
    destruct (filter is_decimal s) as [|d ds]; [discriminate|].
    cbn [skipn tl]. split; [reflexivity|].
    simpl in Hl. lia. }
  split; [exact G|]. split; [|vm_compute; reflexivity].
  intros s Hp Ha Hl H8. unfold digits_only in *.
  rewrite <- (filter_ascii_decimals_only _ Ha) in *.
  apply (G s Hp Hl H8).
Qed.

Lemma normalize_trunk_prefix_witness :
  (startswith (strip (lit "8 (925) 198-90-91")) (lit "+") = false
   /\ length (digits_only is_decimal (lit "8 (925) 198-90-91")) = 11
   /\ startswith (digits_only is_decimal (lit "8 (925) 198-90-91")) (lit "8")
      = true)
  /\ normalize_phone (Some (lit "8 (925) 198-90-91"))
     = lit "+7" ++ last_n 10 (digits_only is_decimal (lit "8 (925) 198-90-91"))
  /\ length (last_n 10 (digits_only is_decimal (lit "8 (925) 198-90-91"))) = 10.
Proof.
  split.
  - repeat split; vm_compute; reflexivity.
  - apply (proj1 normalize_trunk_prefix (lit "8 (925) 198-90-91"));
      vm_compute; reflexivity.
Defined.

(** C6 fails as stated: "89251989091٣" does not start with ['+'] and its ASCII
    digits are the 11 digits 89251989091, but [\d] also matches the
    Arabic-Indic digit, the code sees 12 digits and returns "+89251989091٣",
    not "+79251989091". *)
Lemma normalize_trunk_prefix_counterexample :
  startswith (strip (lit "89251989091٣")) (lit "+") = false
  /\ length (digits_only is_ascii_digit (lit "89251989091٣")) = 11
  /\ startswith (digits_only is_ascii_digit (lit "89251989091٣")) (lit "8")
     = true
  /\ normalize_phone (Some (lit "89251989091٣")) = lit "+89251989091٣"
  /\ normalize_phone (Some (lit "89251989091٣"))
     <> lit "+7" ++ last_n 10 (digits_only is_ascii_digit (lit "89251989091٣")).
Proof.
  repeat split; try (vm_compute; reflexivity).
  vm_compute. discriminate.
Qed.

(** C9: a string in canonical form, ['+'] followed by one or more ASCII
    digits, is returned unchanged by [normalize_phone]; so is
    "+79251989091". *)
Theorem canonical_fixed_point :
  (forall s, canonical_phone s = true -> normalize_phone (Some s) = s)
  /\ normalize_phone (Some (lit "+79251989091")) = lit "+79251989091".
Proof.
  split; [|vm_compute; reflexivity].
  intros s H. destruct s as [|c [|d ds]]; try discriminate.
  cbn [canonical_phone] in H. apply andb_true_iff in H.
  destruct H as [Hc Hd].
  assert (Hs : strip (c :: d :: ds) = c :: d :: ds).
  { apply strip_nospace. cbn [forallb].
    rewrite (plus_not_space _ Hc). cbn [negb andb].
    change (forallb (fun x => negb (is_space x)) (d :: ds) = true).
    rewrite forallb_forall in *. intros x Hx.
    rewrite (ascii_digit_not_space _ (Hd x Hx)). reflexivity. }
  rewrite normalize_phone_unfold. cbv zeta. rewrite Hs.
  change (lit "+") with [0x2B%N]. rewrite startswith_1.
  apply N.eqb_eq in Hc. subst c. rewrite N.eqb_refl.
  unfold sub_nondigits.
  change (filter is_decimal (0x2B%N :: d :: ds))
    with (filter is_decimal (d :: ds)).
  rewrite filter_all; [reflexivity|].
  rewrite forallb_forall in *. intros x Hx.
  apply ascii_digit_decimal. apply Hd. exact Hx.
Qed.

Lemma canonical_fixed_point_witness :
  canonical_phone (lit "+15550100") = true
  /\ normalize_phone (Some (lit "+15550100")) = lit "+15550100".
Proof.
  split; [vm_compute; reflexivity|].
  apply (proj1 canonical_fixed_point (lit "+15550100")).
  vm_compute. reflexivity.
Defined.

(** C10, as the code has it: the result of [normalize_phone] is the empty
    string (always so for the absent input) or ['+'] followed by zero or more
    decimal digits (the characters [\d] matches) and nothing else, ASCII
    digits when the input has no decimal digit outside ASCII; a trimmed input
    that starts with ['+'] and has no digit gives the bare "+"; and
    [parse_contacts] makes a contact of every candidate pair whose normalised
    phone is not empty, "+" included, with no warning for the pair. *)
Theorem normalize_result_shape :
  normalize_phone None = []
  /\ (forall raw,
        normalize_phone (Some raw) = []
        \/ plus_then is_decimal (normalize_phone (Some raw)) = true)
  /\ (forall raw,
        ascii_decimals_only raw = true ->
        normalize_phone (Some raw) = []
        \/ plus_then is_ascii_digit (normalize_phone (Some raw)) = true)
  /\ (forall raw,
        startswith (strip raw) (lit "+") = true ->
        digits_only is_decimal raw = [] ->
        normalize_phone (Some raw) = lit "+")
  /\ normalize_phone (Some (lit "+")) = lit "+"
  /\ (forall text pre name phone post,
        raw_lines text = pre ++ name :: phone :: post ->
        Nat.even (length pre) = true ->
        normalize_phone (Some phone) <> [] ->
        exists cs1 ws1 cs2 ws2,
          parse_lines pre = Ok (cs1, ws1)
          /\ parse_lines post = Ok (cs2, ws2)
          /\ parse_contacts text
             = Ok (cs1 ++ (name, normalize_phone (Some phone)) :: cs2,
                   ws1 ++ ws2))
  /\ parse_contacts text_bare_plus = Ok ([(lit "Alice", lit "+")], []).
Proof.
  split; [reflexivity|].
  split; [intros raw; destruct (normalize_phone_shape raw) as [H | [H _]];
          auto|].
  split; [intros raw Ha; destruct (normalize_phone_shape raw) as [H | [_ H]];
          auto|].
  split.
  { intros raw Hp Hd. rewrite normalize_phone_unfold. cbv zeta.
    unfold digits_only in Hd. unfold sub_nondigits. rewrite Hp, Hd.
    reflexivity. }
  split; [vm_compute; reflexivity|].
  split; [|vm_compute; reflexivity].
  intros text pre name phone post E He Hn.
  destruct (parse_lines_around pre name phone post He)
    as [cs1 [ws1 [cs2 [ws2 [H1 [H2 H]]]]]].
  exists cs1, ws1, cs2, ws2.
  split; [exact H1|]. split; [exact H2|].
  unfold parse_contacts. cbv zeta. rewrite E, H.
  unfold contact_of_pair, warning_of_pair. cbn [fst snd].
  destruct (normalize_phone (Some phone)) eqn:Ep; [congruence|].
  reflexivity.
Qed.

Lemma normalize_result_shape_witness :
  (raw_lines text_bare_plus = [] ++ lit "Alice" :: lit "+" :: []
   /\ Nat.even (length (@nil str)) = true
   /\ normalize_phone (Some (lit "+")) <> [])
  /\ exists cs1 ws1 cs2 ws2,
       parse_lines [] = Ok (cs1, ws1)
       /\ parse_lines [] = Ok (cs2, ws2)
       /\ parse_contacts text_bare_plus
          = Ok (cs1 ++ (lit "Alice", normalize_phone (Some (lit "+"))) :: cs2,
                ws1 ++ ws2).
Proof.
  split.
  - split; [vm_compute; reflexivity|].
    split; [vm_compute; reflexivity|].
    vm_compute. discriminate.
  - apply (proj1 (proj2 (proj2 (proj2 (proj2 (proj2 normalize_result_shape)))))
             text_bare_plus [] (lit "Alice") (lit "+") []).
    + vm_compute. reflexivity.
    + vm_compute. reflexivity.
    + vm_compute. discriminate.
Defined.

(** C10 fails as stated: for the input "٣" (one Arabic-Indic digit) the code
    returns "+٣", which is not empty and is not ['+'] followed by ASCII
    digits. *)
Lemma normalize_result_shape_counterexample :
  normalize_phone (Some (lit "٣")) = lit "+٣"
  /\ normalize_phone (Some (lit "٣")) <> []
  /\ plus_then is_ascii_digit (normalize_phone (Some (lit "٣"))) = false.
Proof.
  split; [vm_compute; reflexivity|].
  split; [vm_compute; discriminate | vm_compute; reflexivity].
Qed.

(** ** Further facts about [strip] *)

Section MoreStripFacts.

Lemma blank_rev w : blank w = true -> blank (rev w) = true.
Proof.
  unfold blank. rewrite !forallb_forall. intros H x Hx.
  apply H. apply (proj2 (in_rev w x)). exact Hx.
Qed.

Lemma lstrip_blank_app w s : blank w = true -> lstrip (w ++ s) = lstrip s.
Proof.
  induction w as [|c w IH]; simpl; intros H; [reflexivity|].
  apply andb_true_iff in H. destruct H as [Hc Hw].
  rewrite Hc. apply IH. exact Hw.
Qed.

Lemma blank_lstrip s : blank s = true -> lstrip s = [].
Proof.
  intros H. rewrite <- (app_nil_r s). rewrite lstrip_blank_app by exact H.
  reflexivity.
Qed.

Lemma lstrip_nil_blank s : lstrip s = [] -> blank s = true.
Proof.
  induction s as [|c r IH]; simpl; intros H; [reflexivity|].
  destruct (is_space c); [simpl; auto | discriminate].
Qed.

Lemma lstrip_head s c r : lstrip s = c :: r -> is_space c = false.
Proof.
  induction s as [|x s IH]; simpl; intros H; [discriminate|].
  destruct (is_space x) eqn:E; [auto|].
  injection H as <- _. exact E.
Qed.

Lemma lstrip_app_nonblank s x c r :
  lstrip s = c :: r -> lstrip (s ++ x) = c :: r ++ x.
Proof.
  induction s as [|y s IH]; simpl; intros H; [discriminate|].
  destruct (is_space y); [auto|].
  injection H as <- <-. reflexivity.
Qed.

Lemma lstrip_idem s : lstrip (lstrip s) = lstrip s.
Proof.
  destruct (lstrip s) as [|c r] eqn:E; [reflexivity|].
  simpl. rewrite (lstrip_head _ _ _ E). reflexivity.
Qed.

Lemma rstrip_blank_app s w : blank w = true -> rstrip (s ++ w) = rstrip s.
Proof.
  intros H. unfold rstrip. rewrite rev_app_distr.
  rewrite lstrip_blank_app by (apply blank_rev; exact H). reflexivity.
Qed.

Lemma rstrip_idem s : rstrip (rstrip s) = rstrip s.
Proof.
  unfold rstrip. rewrite rev_involutive, lstrip_idem. reflexivity.
Qed.

(** Blanks around a text do not change what [strip] returns. *)
Lemma strip_padding w1 s w2 :
  blank w1 = true -> blank w2 = true -> strip (w1 ++ s ++ w2) = strip s.
Proof.
  intros H1 H2. unfold strip. rewrite lstrip_blank_app by exact H1.
  destruct (lstrip s) as [|c r] eqn:E.
  - apply lstrip_nil_blank in E.
    assert (B : blank (s ++ w2) = true)
      by (unfold blank in *; rewrite forallb_app, E, H2; reflexivity).
    rewrite (blank_lstrip _ B). reflexivity.
  - rewrite (lstrip_app_nonblank _ w2 _ _ E).
    change (c :: r ++ w2) with ((c :: r) ++ w2).
    apply rstrip_blank_app. exact H2.
Qed.

Lemma strip_idem s : strip (strip s) = strip s.
Proof.
  unfold strip.
  assert (L : lstrip (rstrip (lstrip s)) = rstrip (lstrip s)).
  { destruct (lstrip s) as [|c r] eqn:E; [reflexivity|].
    pose proof (lstrip_head _ _ _ E) as Hc.
    rewrite (rstrip_cons_nonspace _ _ Hc). simpl. rewrite Hc. reflexivity. }
  rewrite L. apply rstrip_idem.
Qed.

(** A text with a non-blank character keeps its first stripped character
    whatever is appended to it. *)
Lemma strip_head_app a x p :
  truthy (strip a) = true ->
  startswith (strip (a ++ x)) [p] = startswith (strip a) [p].
Proof.
  unfold strip. intros H.
  destruct (lstrip a) as [|c r] eqn:E; [discriminate|].
  pose proof (lstrip_head _ _ _ E) as Hc.
  rewrite (lstrip_app_nonblank _ x _ _ E).
  rewrite !(rstrip_cons_nonspace _ _ Hc), !startswith_1. reflexivity.
Qed.

Lemma rstrip_snoc_nonspace x l :
  is_space l = false -> rstrip (x ++ [l]) = x ++ [l].
Proof.
  intros Hl. unfold rstrip. rewrite rev_app_distr. simpl.
  rewrite Hl. simpl. rewrite rev_involutive. reflexivity.
Qed.

(** A text whose first and last characters are not blanks is left as it is. *)
Lemma strip_ends c m l :
  is_space c = false -> is_space l = false ->
  strip (c :: m ++ [l]) = c :: m ++ [l].
Proof.
  intros Hc Hl. unfold strip. simpl lstrip. rewrite Hc.
  apply (rstrip_snoc_nonspace (c :: m) l Hl).
Qed.

End MoreStripFacts.

(** ** Further properties of [normalize_phone] *)

Lemma normalize_plus_decimals ds :
  forallb is_decimal ds = true ->
  normalize_phone (Some (0x2B%N :: ds)) = 0x2B%N :: ds.
Proof.
  intros H.
  assert (Hs : strip (0x2B%N :: ds) = 0x2B%N :: ds).
  { apply strip_nospace. cbn [forallb].
    change (is_space 0x2B%N) with false. cbn [negb andb].
    rewrite forallb_forall in *. intros x Hx.
    rewrite (decimal_not_space _ (H x Hx)). reflexivity. }
  rewrite normalize_phone_unfold. cbv zeta. rewrite Hs.
  change (startswith (0x2B%N :: ds) (lit "+")) with true.
  unfold sub_nondigits.
  change (filter is_decimal (0x2B%N :: ds)) with (filter is_decimal ds).
  rewrite (filter_all _ _ H). reflexivity.
Qed.

(** X1: [normalize_phone] is idempotent: normalising a result again returns
    it unchanged, whatever the input was. *)
Theorem normalize_phone_idempotent s :
  normalize_phone (Some (normalize_phone (Some s)))
  = normalize_phone (Some s).
Proof.
  pose proof (forallb_filter_same is_decimal s) as Hd.
  fold (sub_nondigits s) in Hd.
  destruct (normalize_phone_cases s) as [[H _] | [H | H]]; rewrite H.
  - reflexivity.
  - apply normalize_plus_decimals. exact Hd.
  - apply normalize_plus_decimals. cbn [forallb].
    change (is_decimal 55%N) with true. apply forallb_tl. exact Hd.
Qed.

(** X2: [normalize_phone] fails (returns the empty string) exactly when the
    input has no decimal digit and its trimmed form does not start with
    ['+']. *)
Theorem normalize_phone_fails_iff s :
  normalize_phone (Some s) = []
  <-> digits_only is_decimal s = []
      /\ startswith (strip s) (lit "+") = false.
Proof.
  rewrite normalize_phone_unfold. cbv zeta. unfold digits_only, sub_nondigits.
  destruct (startswith (strip s) (lit "+")).
  - split; [discriminate | intros [_ H]; discriminate].
  - destruct ((length (filter is_decimal s) =? 11)%nat
              && startswith (filter is_decimal s) (lit "8")) eqn:E.
    + split; [discriminate|]. intros [H _]. rewrite H in E. discriminate.
    + destruct (filter is_decimal s); simpl.
      * tauto.
      * split; [discriminate | intros [H _]; discriminate].
Qed.

(** X3: blanks before and after the phone text do not change the result. *)
Theorem normalize_phone_padding w1 s w2 :
  blank w1 = true -> blank w2 = true ->
  normalize_phone (Some (w1 ++ s ++ w2)) = normalize_phone (Some s).
Proof.
  intros H1 H2. unfold normalize_phone.
  rewrite (strip_padding _ s _ H1 H2). reflexivity.
Qed.

Lemma normalize_phone_padding_witness :
  (blank (lit "  ") = true /\ blank (lit " ") = true)
  /\ normalize_phone (Some (lit "  " ++ lit "8 925 198-90-91" ++ lit " "))
     = normalize_phone (Some (lit "8 925 198-90-91")).
Proof.
  split; [split; vm_compute; reflexivity|].
  apply (normalize_phone_padding (lit "  ") (lit "8 925 198-90-91") (lit " "));
    vm_compute; reflexivity.
Defined.

(** X4: characters that are not decimal digits (spaces, dashes, brackets,
    letters, a further ['+']) placed after the first non-blank character of
    the phone text are ignored: the result is that of the text without them. *)
Theorem normalize_phone_separators a seps b :
  truthy (strip a) = true ->
  forallb (fun c => negb (is_decimal c)) seps = true ->
  normalize_phone (Some (a ++ seps ++ b)) = normalize_phone (Some (a ++ b)).
Proof.
  intros Ha Hs.
  assert (F : filter is_decimal seps = []).
  { induction seps as [|c r IH]; [reflexivity|]. simpl in *.
    apply andb_true_iff in Hs. destruct Hs as [Hc Hr].
    apply negb_true_iff in Hc. rewrite Hc. auto. }
  rewrite !normalize_phone_unfold. cbv zeta.
  change (lit "+") with [0x2B%N].
  rewrite !(strip_head_app a _ _ Ha).
  unfold sub_nondigits. rewrite !filter_app, F. reflexivity.
Qed.

Lemma normalize_phone_separators_witness :
  (truthy (strip (lit "+7")) = true
   /\ forallb (fun c => negb (is_decimal c)) (lit " (") = true)
  /\ normalize_phone (Some (lit "+7" ++ lit " (" ++ lit "9251989091"))
     = normalize_phone (Some (lit "+7" ++ lit "9251989091")).
Proof.
  split; [split; vm_compute; reflexivity|].
  apply (normalize_phone_separators (lit "+7") (lit " (") (lit "9251989091"));
    vm_compute; reflexivity.
Defined.

(** X5: the three usual spellings of a Russian number agree: for ten decimal
    digits [d], the texts "8"+d, "7"+d and "+7"+d all normalise to "+7"+d. *)
Theorem normalize_phone_spellings d :
  length d = 10 ->
  forallb is_decimal d = true ->
  normalize_phone (Some (lit "8" ++ d)) = lit "+7" ++ d
  /\ normalize_phone (Some (lit "7" ++ d)) = lit "+7" ++ d
  /\ normalize_phone (Some (lit "+7" ++ d)) = lit "+7" ++ d.
Proof.
  intros Hl Hd.
  assert (Hn : forallb (fun c => negb (is_space c)) d = true).
  { rewrite forallb_forall in *. intros x Hx.
    rewrite (decimal_not_space _ (Hd x Hx)). reflexivity. }
  assert (S8 : strip (lit "8" ++ d) = lit "8" ++ d)
    by (apply strip_nospace; exact Hn).
  assert (S7 : strip (lit "7" ++ d) = lit "7" ++ d)
    by (apply strip_nospace; exact Hn).
  split; [|split].
  - rewrite normalize_phone_unfold. cbv zeta. rewrite S8.
    unfold sub_nondigits.
    change (filter is_decimal (lit "8" ++ d))
      with (56%N :: filter is_decimal d).
    rewrite (filter_all _ _ Hd). cbn [length]. rewrite Hl. reflexivity.
  - rewrite normalize_phone_unfold. cbv zeta. rewrite S7.
    unfold sub_nondigits.
    change (filter is_decimal (lit "7" ++ d))
      with (55%N :: filter is_decimal d).
    rewrite (filter_all _ _ Hd). cbn [length]. rewrite Hl. reflexivity.
  - change (lit "+7" ++ d) with (0x2B%N :: 55%N :: d).
    apply normalize_plus_decimals. cbn [forallb].
    change (is_decimal 55%N) with true. exact Hd.
Qed.

Lemma normalize_phone_spellings_witness :
  (length (lit "9251989091") = 10
   /\ forallb is_decimal (lit "9251989091") = true)
  /\ normalize_phone (Some (lit "8" ++ lit "9251989091"))
     = lit "+7" ++ lit "9251989091"
  /\ normalize_phone (Some (lit "7" ++ lit "9251989091"))
     = lit "+7" ++ lit "9251989091"
  /\ normalize_phone (Some (lit "+7" ++ lit "9251989091"))
     = lit "+7" ++ lit "9251989091".
Proof.
  split; [split; vm_compute; reflexivity|].
  apply (normalize_phone_spellings (lit "9251989091"));
    vm_compute; reflexivity.
Defined.

(** X6: without a leading ['+'], and unless the digits are exactly 11 and
    begin with '8', a text with at least one decimal digit normalises to "+"
    followed by all its digits; the rule for 11 digits beginning with '7'
    gives nothing else than this fallback. *)
Theorem normalize_phone_fallback s :
  startswith (strip s) (lit "+") = false ->
  digits_only is_decimal s <> [] ->
  (length (digits_only is_decimal s) = 11 ->
   startswith (digits_only is_decimal s) (lit "8") = false) ->
  normalize_phone (Some s) = lit "+" ++ digits_only is_decimal s.
Proof.
  intros Hp Hd H8. rewrite normalize_phone_unfold. cbv zeta.
  unfold digits_only in *. unfold sub_nondigits. rewrite Hp.
  destruct ((length (filter is_decimal s) =? 11)%nat
            && startswith (filter is_decimal s) (lit "8")) eqn:E.
  - apply andb_true_iff in E. destruct E as [L E8].
    apply Nat.eqb_eq in L. rewrite (H8 L) in E8. discriminate.
  - destruct (filter is_decimal s); [congruence | reflexivity].
Qed.

Lemma normalize_phone_fallback_witness :
  (startswith (strip (lit "7 925 198-90-91")) (lit "+") = false
   /\ digits_only is_decimal (lit "7 925 198-90-91") <> []
   /\ (length (digits_only is_decimal (lit "7 925 198-90-91")) = 11 ->
       startswith (digits_only is_decimal (lit "7 925 198-90-91")) (lit "8")
       = false))
  /\ normalize_phone (Some (lit "7 925 198-90-91"))
     = lit "+" ++ digits_only is_decimal (lit "7 925 198-90-91").
Proof.
  split.
  - split; [vm_compute; reflexivity|].
    split; [vm_compute; discriminate | intros _; vm_compute; reflexivity].
  - apply (normalize_phone_fallback (lit "7 925 198-90-91")).
    + vm_compute. reflexivity.
    + vm_compute. discriminate.
    + intros _. vm_compute. reflexivity.
Defined.

(** ** Further facts about [splitlines] and the raw lines *)

Section LineFacts.

Lemma linebreak_is_space c : is_linebreak c = true -> is_space c = true.
Proof.
  intros H. apply in_ranges_true in H. destruct H as [r1 [In1 [L1 U1]]].
  assert (S : ranges_subset linebreak_ranges space_ranges = true)
    by (vm_compute; reflexivity).
  unfold ranges_subset in S. rewrite forallb_forall in S.
  specialize (S r1 In1). apply existsb_exists in S.
  destruct S as [r2 [In2 H2]]. apply andb_true_iff in H2.
  destruct H2 as [A B]. apply N.leb_le in A. apply N.leb_le in B.
  apply in_ranges_true. exists r2. split; [exact In2 | lia].
Qed.

Lemma splitlines_from_lf_head cur t :
  splitlines_from cur (LF :: t) = rev cur :: splitlines_from [] t.
Proof.
  cbn [splitlines_from]. change (is_linebreak LF) with true. cbv iota.
  destruct t as [|c' t']; [reflexivity|].
  change (LF =? CR)%N with false. reflexivity.
Qed.

(** A line feed ends the current line whatever comes before it, so the lines
    of a text with a line feed in it are those before it and those after it. *)
Lemma splitlines_from_lf n : forall t1 cur t2,
  length t1 <= n ->
  splitlines_from cur (t1 ++ LF :: t2)
  = splitlines_from cur (t1 ++ [LF]) ++ splitlines_from [] t2.
Proof.
  induction n as [|n IH]; intros t1 cur t2 Hn.
  - destruct t1; [|simpl in Hn; lia].
    simpl app. rewrite !splitlines_from_lf_head. reflexivity.
  - destruct t1 as [|c r].
    + simpl app. rewrite !splitlines_from_lf_head. reflexivity.
    + simpl in Hn. simpl app. cbn [splitlines_from].
      destruct (is_linebreak c).
      * destruct r as [|c' r'].
        -- simpl app. change (LF =? LF)%N with true.
           destruct (c =? CR)%N; cbn [andb].
           ++ reflexivity.
           ++ rewrite !splitlines_from_lf_head. reflexivity.
        -- change ((c' :: r') ++ LF :: t2) with (c' :: (r' ++ LF :: t2)).
           change ((c' :: r') ++ [LF]) with (c' :: (r' ++ [LF])).
           cbv iota.
           destruct ((c =? CR)%N && (c' =? LF)%N).
           ++ rewrite (IH r' [] t2) by (simpl in Hn; lia). reflexivity.
           ++ change (c' :: (r' ++ LF :: t2)) with ((c' :: r') ++ LF :: t2).
              rewrite (IH (c' :: r') [] t2) by (simpl in *; lia).
              reflexivity.
      * apply IH. lia.
Qed.

(** A line feed at the end of the text adds at most an empty line. *)
Lemma splitlines_from_trailing_lf n : forall t cur,
  length t <= n ->
  filter truthy (map strip (splitlines_from cur (t ++ [LF])))
  = filter truthy (map strip (splitlines_from cur t)).
Proof.
  induction n as [|n IH]; intros t cur Hn.
  - destruct t; [|simpl in Hn; lia].
    simpl app. rewrite splitlines_from_lf_head.
    destruct cur; reflexivity.
  - destruct t as [|c r].
    + simpl app. rewrite splitlines_from_lf_head.
      destruct cur; reflexivity.
    + simpl in Hn. simpl app. cbn [splitlines_from].
      destruct (is_linebreak c).
      * destruct r as [|c' r'].
        -- simpl app. change (LF =? LF)%N with true.
           destruct (c =? CR)%N; cbn [andb].
           ++ reflexivity.
           ++ rewrite splitlines_from_lf_head. reflexivity.
        -- change ((c' :: r') ++ [LF]) with (c' :: (r' ++ [LF])).
           cbv iota.
           destruct ((c =? CR)%N && (c' =? LF)%N).
           ++ cbn [map filter]. rewrite (IH r' []) by (simpl in Hn; lia).
              reflexivity.
           ++ cbn [map filter].
              change (c' :: (r' ++ [LF])) with ((c' :: r') ++ [LF]).
              rewrite (IH (c' :: r') []) by (simpl in *; lia).
              reflexivity.
      * apply IH. lia.
Qed.

Lemma raw_lines_app t1 t2 :
  raw_lines (t1 ++ NL ++ t2) = raw_lines t1 ++ raw_lines t2.
Proof.
  unfold raw_lines, splitlines, NL. cbv zeta. simpl app.
  rewrite (splitlines_from_lf (length t1) t1 [] t2 (Nat.le_refl _)).
  rewrite map_app, filter_app.
  rewrite (splitlines_from_trailing_lf (length t1) t1 [] (Nat.le_refl _)).
  reflexivity.
Qed.

Lemma strip_blank w : blank w = true -> strip w = [].
Proof.
  intros H. unfold strip. rewrite (blank_lstrip _ H). reflexivity.
Qed.

Lemma raw_lines_blank w : blank w = true -> raw_lines w = [].
Proof.
  intros H. unfold raw_lines. cbv zeta.
  assert (A : forall l, In l (splitlines w) -> strip l = []).
  { intros l Hl. apply strip_blank. unfold blank in *.
    rewrite forallb_forall in *. intros c Hc. apply H.
    destruct (splitlines_from_incl (length w) w [] l c (Nat.le_refl _) Hl Hc)
      as [[] | Hw]. exact Hw. }
  induction (splitlines w) as [|l ls IH]; [reflexivity|].
  cbn [map filter]. rewrite (A l) by (left; reflexivity).
  cbn [truthy]. apply IH. intros l' Hl'. apply A. right. exact Hl'.
Qed.

(** No line of [splitlines] holds a line boundary. *)
Lemma splitlines_from_no_linebreak n : forall s cur line,
  length s <= n ->
  no_linebreak cur = true ->
  In line (splitlines_from cur s) -> no_linebreak line = true.
Proof.
  assert (R : forall cur, no_linebreak cur = true ->
                          no_linebreak (rev cur) = true).
  { intros cur H. unfold no_linebreak in *. rewrite forallb_forall in *.
    intros x Hx. apply H. apply (proj2 (in_rev cur x)). exact Hx. }
  induction n as [|n IH]; intros s cur line Hn Hc Hl.
  - destruct s; [|simpl in Hn; lia].
    simpl in Hl. destruct cur; [destruct Hl|].
    destruct Hl as [<- | []]. apply R. exact Hc.
  - destruct s as [|c0 rest].
    + simpl in Hl. destruct cur; [destruct Hl|].
      destruct Hl as [<- | []]. apply R. exact Hc.
    + simpl in Hn. cbn [splitlines_from] in Hl.
      destruct (is_linebreak c0) eqn:E.
      * destruct rest as [|c' rest'].
        -- cbn in Hl. destruct Hl as [<- | []]. apply R. exact Hc.
        -- destruct ((c0 =? CR)%N && (c' =? LF)%N);
             (destruct Hl as [<- | Hl];
              [ apply R; exact Hc
              | apply (IH _ [] line) in Hl;
                [ exact Hl | simpl in *; lia | reflexivity ] ]).
      * apply (IH rest (c0 :: cur) line); [lia | | exact Hl].
        unfold no_linebreak in *. cbn [forallb]. rewrite E, Hc. reflexivity.
Qed.

Lemma no_linebreak_incl s t :
  (forall c, In c s -> In c t) ->
  no_linebreak t = true -> no_linebreak s = true.
Proof.
  unfold no_linebreak. rewrite !forallb_forall. auto.
Qed.

(** A raw line is trimmed and holds no line boundary. *)
Lemma raw_line_clean text line :
  In line (raw_lines text) ->
  strip line = line /\ no_linebreak line = true /\ line <> [].
Proof.
  intros Hl. pose proof (raw_lines_nonempty _ _ Hl) as Hne.
  unfold raw_lines in Hl. apply filter_In in Hl. destruct Hl as [Hl _].
  apply in_map_iff in Hl. destruct Hl as [l0 [<- Hl0]].
  split; [apply strip_idem|]. split; [|exact Hne].
  apply (no_linebreak_incl (strip l0) l0); [apply strip_incl|].
  apply (splitlines_from_no_linebreak (length text) text [] l0
           (Nat.le_refl _) eq_refl Hl0).
Qed.

End LineFacts.

(** ** Further properties of [parse_contacts] *)

Lemma pair_yields_one p :
  length (contact_of_pair p) + length (warning_of_pair p) = 1.
Proof.
  unfold contact_of_pair, warning_of_pair.
  destruct (truthy (normalize_phone (Some (snd p)))); reflexivity.
Qed.

Lemma pairs_yield_one_each pairs :
  length (flat_map contact_of_pair pairs)
  + length (flat_map warning_of_pair pairs) = length pairs.
Proof.
  induction pairs as [|p ps IH]; [reflexivity|].
  cbn [flat_map]. rewrite !length_app. cbn [length].
  pose proof (pair_yields_one p). lia.
Qed.

Lemma candidate_pairs_length lines :
  length (candidate_pairs lines) = Nat.div2 (length lines)
  /\ length (candidate_pairs lines) + length (trailing_warning lines)
     = Nat.div2 (S (length lines)).
Proof.
  induction lines as [| x | x y l [IH1 IH2]] using two_step_ind.
  - split; reflexivity.
  - split; reflexivity.
  - cbn [candidate_pairs trailing_warning length Nat.div2] in *.
    split; lia.
Qed.

Lemma trailing_warning_nil_iff lines :
  trailing_warning lines = [] <-> Nat.even (length lines) = true.
Proof.
  induction lines as [| x | x y l IH] using two_step_ind; cbn.
  - tauto.
  - split; discriminate.
  - exact IH.
Qed.

Lemma pair_warnings_nil_iff pairs :
  flat_map warning_of_pair pairs = []
  <-> forall name phone,
        In (name, phone) pairs -> normalize_phone (Some phone) <> [].
Proof.
  induction pairs as [|[n p] ps IH]; cbn [flat_map].
  - split; [intros _ name phone [] | reflexivity].
  - unfold warning_of_pair at 1. cbn [fst snd]. split.
    + intros H name phone [E | Hin].
      * injection E as -> ->.
        destruct (normalize_phone (Some phone)); [discriminate H | discriminate].
      * destruct (truthy (normalize_phone (Some p))); [|discriminate H].
        apply (proj1 IH H name phone Hin).
    + intros H.
      destruct (normalize_phone (Some p)) eqn:E.
      * exfalso. apply (H n p); [left; reflexivity | exact E].
      * cbn [truthy app]. apply IH. intros name phone Hin.
        apply (H name phone). right. exact Hin.
Qed.

Lemma clean_pairs_contacts pairs :
  flat_map warning_of_pair pairs = [] ->
  flat_map contact_of_pair pairs
  = map (fun p => (fst p, normalize_phone (Some (snd p)))) pairs.
Proof.
  induction pairs as [|[n p] ps IH]; [reflexivity|].
  cbn [flat_map map]. unfold warning_of_pair at 1, contact_of_pair at 1.
  cbn [fst snd].
  destruct (truthy (normalize_phone (Some p))); [|discriminate].
  cbn [app]. intros H. rewrite (IH H). reflexivity.
Qed.

(** X7: nothing is dropped silently: every two lines give exactly one contact
    or one warning and a last unpaired line gives one warning, so that
    contacts and warnings together number half the lines, rounded up. *)
Theorem parse_contacts_accounting text :
  exists contacts warnings,
    parse_contacts text = Ok (contacts, warnings)
    /\ length contacts + length warnings
       = Nat.div2 (S (length (raw_lines text)))
    /\ length contacts <= Nat.div2 (length (raw_lines text)).
Proof.
  unfold parse_contacts. cbv zeta. rewrite parse_lines_closed.
  eexists. eexists. split; [reflexivity|].
  pose proof (pairs_yield_one_each (candidate_pairs (raw_lines text))) as H1.
  destruct (candidate_pairs_length (raw_lines text)) as [H2 H3].
  rewrite length_app. split; lia.
Qed.

(** X8: the warnings list is empty exactly when the lines are even in number
    and every phone line normalises; then there is one contact for every two
    lines, named after the name lines in their order. *)
Theorem parse_contacts_no_warning_iff text :
  exists contacts warnings,
    parse_contacts text = Ok (contacts, warnings)
    /\ (warnings = []
        <-> Nat.even (length (raw_lines text)) = true
            /\ forall name phone,
                 In (name, phone) (candidate_pairs (raw_lines text)) ->
                 normalize_phone (Some phone) <> [])
    /\ (warnings = [] ->
        length (raw_lines text) = 2 * length contacts
        /\ map fst contacts = map fst (candidate_pairs (raw_lines text))).
Proof.
  unfold parse_contacts. cbv zeta. rewrite parse_lines_closed.
  eexists. eexists. split; [reflexivity|].
  set (lines := raw_lines text).
  split.
  - split.
    + intros H. apply app_eq_nil in H. destruct H as [Hw Ht].
      split; [apply trailing_warning_nil_iff; exact Ht|].
      apply pair_warnings_nil_iff. exact Hw.
    + intros [He Hp].
      rewrite (proj2 (trailing_warning_nil_iff lines) He).
      rewrite (proj2 (pair_warnings_nil_iff _) Hp). reflexivity.
  - intros H. apply app_eq_nil in H. destruct H as [Hw Ht].
    rewrite (clean_pairs_contacts _ Hw). split.
    + rewrite length_map.
      destruct (candidate_pairs_length lines) as [H2 _]. rewrite H2.
      apply trailing_warning_nil_iff in Ht.
      apply Nat.even_spec in Ht. destruct Ht as [k Hk]. rewrite Hk.
      rewrite Nat.div2_double. reflexivity.
    + rewrite map_map. reflexivity.
Qed.

(** X9: texts compose: when the first text has an even number of non-blank
    lines, the result for the two texts put one after the other with a line
    feed between them is the contacts of the first followed by those of the
    second, and likewise the warnings. *)
Theorem parse_contacts_concat t1 t2 :
  Nat.even (length (raw_lines t1)) = true ->
  exists cs1 ws1 cs2 ws2,
    parse_contacts t1 = Ok (cs1, ws1)
    /\ parse_contacts t2 = Ok (cs2, ws2)
    /\ parse_contacts (t1 ++ NL ++ t2) = Ok (cs1 ++ cs2, ws1 ++ ws2).
Proof.
  intros He. unfold parse_contacts. cbv zeta.
  rewrite raw_lines_app, !parse_lines_closed.
  do 4 eexists. split; [reflexivity|]. split; [reflexivity|].
  rewrite (candidate_pairs_app _ _ He), (trailing_warning_app _ _ He).
  rewrite (trailing_warning_even _ He), app_nil_r, !flat_map_app.
  rewrite <- !app_assoc. reflexivity.
Qed.

Lemma parse_contacts_concat_witness :
  Nat.even (length (raw_lines text_notaphone)) = true
  /\ exists cs1 ws1 cs2 ws2,
       parse_contacts text_notaphone = Ok (cs1, ws1)
       /\ parse_contacts text_alice_bob = Ok (cs2, ws2)
       /\ parse_contacts (text_notaphone ++ NL ++ text_alice_bob)
          = Ok (cs1 ++ cs2, ws1 ++ ws2).
Proof.
  split; [vm_compute; reflexivity|].
  apply (parse_contacts_concat text_notaphone text_alice_bob).
  vm_compute. reflexivity.
Defined.

(** X10: blank lines do not count: a run of blanks and line boundaries
    between two line feeds, and a line feed at the end of the text, leave the
    result unchanged. *)
Theorem parse_contacts_blank_lines :
  (forall t1 w t2,
      blank w = true ->
      parse_contacts (t1 ++ NL ++ w ++ NL ++ t2)
      = parse_contacts (t1 ++ NL ++ t2))
  /\ (forall text, parse_contacts (text ++ NL) = parse_contacts text).
Proof.
  split.
  - intros t1 w t2 Hw. unfold parse_contacts. cbv zeta.
    rewrite !raw_lines_app, (raw_lines_blank _ Hw). reflexivity.
  - intros text. unfold parse_contacts. cbv zeta.
    rewrite <- (app_nil_r NL) at 1. rewrite raw_lines_app.
    change (raw_lines []) with (@nil str). rewrite app_nil_r. reflexivity.
Qed.

Lemma parse_contacts_blank_lines_witness :
  blank (lit "  " ++ NL ++ lit " ") = true
  /\ parse_contacts
       (lit "Alice" ++ NL ++ (lit "  " ++ NL ++ lit " ") ++ NL ++ lit "+1")
     = parse_contacts (lit "Alice" ++ NL ++ lit "+1").
Proof.
  split; [vm_compute; reflexivity|].
  apply (proj1 parse_contacts_blank_lines (lit "Alice")
           (lit "  " ++ NL ++ lit " ") (lit "+1")).
  vm_compute. reflexivity.
Defined.

Lemma normalized_phone_no_blank raw :
  forallb (fun c => negb (is_space c)) (normalize_phone (Some raw)) = true.
Proof.
  destruct (normalize_phone_shape raw) as [E | [Hd _]].
  - rewrite E. reflexivity.
  - destruct (normalize_phone (Some raw)) as [|c ds]; [reflexivity|].
    cbn [plus_then] in Hd. apply andb_true_iff in Hd.
    destruct Hd as [Hc Hds]. cbn [forallb].
    rewrite (plus_not_space _ Hc). cbn [negb andb].
    rewrite forallb_forall in *. intros x Hx.
    rewrite (decimal_not_space _ (Hds x Hx)). reflexivity.
Qed.

Lemma no_blank_no_linebreak s :
  forallb (fun c => negb (is_space c)) s = true -> no_linebreak s = true.
Proof.
  unfold no_linebreak. rewrite !forallb_forall. intros B x Hx.
  specialize (B x Hx). apply negb_true_iff in B.
  destruct (is_linebreak x) eqn:E; [|reflexivity].
  apply linebreak_is_space in E. congruence.
Qed.

(** Where a contact comes from: a name line and the phone line after it. *)
Lemma parsed_contact_origin text contacts warnings name phone :
  parse_contacts text = Ok (contacts, warnings) ->
  In (name, phone) contacts ->
  exists raw,
    In (name, raw) (candidate_pairs (raw_lines text))
    /\ phone = normalize_phone (Some raw).
Proof.
  unfold parse_contacts. cbv zeta. rewrite parse_lines_closed. intros H Hin.
  injection H as <- _.
  apply in_flat_map in Hin. destruct Hin as [[n p] [Hp Hc]].
  unfold contact_of_pair in Hc. cbn [fst snd] in Hc.
  destruct (truthy (normalize_phone (Some p))); [|destruct Hc].
  destruct Hc as [Hc | []]. injection Hc as -> <-.
  exists p. auto.
Qed.

(** X11: the fields of a contact are clean: the name is trimmed and holds no
    line boundary, the phone holds no blank and no line boundary. *)
Theorem contact_fields_clean text contacts warnings name phone :
  parse_contacts text = Ok (contacts, warnings) ->
  In (name, phone) contacts ->
  strip name = name
  /\ no_linebreak name = true
  /\ forallb (fun c => negb (is_space c)) phone = true
  /\ no_linebreak phone = true.
Proof.
  intros P Hin.
  destruct (parsed_contact_origin _ _ _ _ _ P Hin) as [raw [Hp ->]].
  apply in_candidate_pairs in Hp. destruct Hp as [Hn _].
  destruct (raw_line_clean _ _ Hn) as [Hs [Hl _]].
  pose proof (normalized_phone_no_blank raw) as B.
  split; [exact Hs|]. split; [exact Hl|]. split; [exact B|].
  apply no_blank_no_linebreak. exact B.
Qed.

Lemma contact_fields_clean_witness :
  (parse_contacts text_alice_bob
   = Ok ([(lit "Alice", lit "+15550100")], [warn_dangling (lit "Bob")])
   /\ In (lit "Alice", lit "+15550100") [(lit "Alice", lit "+15550100")])
  /\ strip (lit "Alice") = lit "Alice"
  /\ no_linebreak (lit "Alice") = true
  /\ forallb (fun c => negb (is_space c)) (lit "+15550100") = true
  /\ no_linebreak (lit "+15550100") = true.
Proof.
  split.
  - split; [vm_compute; reflexivity | left; reflexivity].
  - apply (contact_fields_clean text_alice_bob
             [(lit "Alice", lit "+15550100")] [warn_dangling (lit "Bob")]
             (lit "Alice") (lit "+15550100"));
      [vm_compute; reflexivity | left; reflexivity].
Defined.

(** ** Further properties of [to_vcard] *)

Section DocumentFacts.

Lemma join_app sep a b :
  a <> [] -> b <> [] ->
  join sep (a ++ b) = join sep a ++ sep ++ join sep b.
Proof.
  intros Ha Hb. induction a as [|x a IH]; [congruence|].
  destruct a as [|y a].
  - destruct b as [|z b]; [congruence|]. reflexivity.
  - change (join sep ((x :: y :: a) ++ b))
      with (x ++ sep ++ join sep ((y :: a) ++ b)).
    rewrite IH by discriminate. cbn [join].
    rewrite <- !app_assoc. reflexivity.
Qed.

Lemma no_linebreak_app a b :
  no_linebreak (a ++ b) = no_linebreak a && no_linebreak b.
Proof. apply forallb_app. Qed.

Lemma splitlines_from_app_clean l : forall cur rest,
  no_linebreak l = true ->
  splitlines_from cur (l ++ rest) = splitlines_from (rev l ++ cur) rest.
Proof.
  induction l as [|c r IH]; intros cur rest H; [reflexivity|].
  cbn [no_linebreak forallb] in H. apply andb_true_iff in H.
  destruct H as [Hc Hr]. apply negb_true_iff in Hc.
  cbn [app splitlines_from]. rewrite Hc.
  rewrite (IH (c :: cur) rest Hr). cbn [rev].
  rewrite <- app_assoc. reflexivity.
Qed.

(** Lines that are not empty and hold no line boundary are recovered by
    [splitlines] from their [join] with line feeds. *)
Lemma splitlines_join ls :
  forallb (fun l => no_linebreak l && truthy l) ls = true ->
  splitlines (join NL ls) = ls.
Proof.
  unfold splitlines. induction ls as [|l ls IH]; intros H; [reflexivity|].
  cbn [forallb] in H. apply andb_true_iff in H. destruct H as [Hl Hls].
  apply andb_true_iff in Hl. destruct Hl as [Hn Ht].
  destruct ls as [|l' ls'].
  - cbn [join]. rewrite <- (app_nil_r l) at 1.
    rewrite (splitlines_from_app_clean l [] [] Hn), app_nil_r.
    cbn [splitlines_from].
    destruct (rev l) as [|x xs] eqn:E.
    + apply (f_equal (@rev char)) in E. rewrite rev_involutive in E.
      subst l. discriminate.
    + rewrite <- E, rev_involutive. reflexivity.
  - change (join NL (l :: l' :: ls')) with (l ++ LF :: join NL (l' :: ls')).
    rewrite (splitlines_from_app_clean l [] _ Hn), app_nil_r.
    rewrite splitlines_from_lf_head, rev_involutive.
    rewrite (IH Hls). reflexivity.
Qed.

Lemma to_vcard_lines cs :
  to_vcard cs = join NL (flat_map vcard_block_lines cs).
Proof.
  unfold to_vcard. cbv zeta.
  induction cs as [|e cs IH]; [reflexivity|].
  destruct cs as [|e' cs'].
  - cbn [map join flat_map]. rewrite app_nil_r. reflexivity.
  - change (flat_map vcard_block_lines (e :: e' :: cs'))
      with (vcard_block_lines e ++ flat_map vcard_block_lines (e' :: cs')).
    rewrite join_app;
      [ | destruct e; discriminate | destruct e'; discriminate ].
    rewrite <- IH. reflexivity.
Qed.

Lemma block_lines_clean e :
  one_line_contact e = true ->
  forallb (fun l => no_linebreak l && truthy l) (vcard_block_lines e) = true.
Proof.
  destruct e as [name phone]. unfold one_line_contact. cbn [fst snd].
  intros H. apply andb_true_iff in H. destruct H as [Hn Hp].
  cbn [vcard_block_lines forallb].
  rewrite !no_linebreak_app, Hn, Hp.
  vm_compute. reflexivity.
Qed.

Lemma document_lines_clean cs :
  forallb one_line_contact cs = true ->
  forallb (fun l => no_linebreak l && truthy l)
    (flat_map vcard_block_lines cs) = true.
Proof.
  induction cs as [|e cs IH]; [reflexivity|].
  cbn [forallb flat_map]. intros H. apply andb_true_iff in H.
  destruct H as [He Hcs].
  rewrite forallb_app, (block_lines_clean _ He), (IH Hcs). reflexivity.
Qed.

Lemma block_lines_inj cs : forall cs',
  flat_map vcard_block_lines cs = flat_map vcard_block_lines cs' -> cs = cs'.
Proof.
  induction cs as [|[n p] cs IH]; intros [|[n' p'] cs'] H.
  - reflexivity.
  - discriminate.
  - discriminate.
  - cbn [flat_map vcard_block_lines app] in H.
    injection H as Hn Hp Hr.
    subst n' p'. rewrite (IH _ Hr). reflexivity.
Qed.

Lemma to_vcard_tail es e :
  exists p, to_vcard (es ++ [e]) = p ++ lit "END:VCAR" ++ [68%N].
Proof.
  rewrite to_vcard_blocks, map_app. cbn [map]. rewrite join_snoc.
  set (body := lit "BEGIN:VCARD" ++ NL ++ lit "VERSION:3.0" ++ NL
                 ++ lit "FN:" ++ fst e ++ NL
                 ++ lit "TEL;TYPE=CELL:" ++ snd e ++ NL).
  assert (Hb : vcard_block e = body ++ lit "END:VCAR" ++ [68%N]).
  { unfold vcard_block, body. rewrite <- !app_assoc. reflexivity. }
  rewrite Hb.
  destruct (map vcard_block es) as [|b bs].
  - exists body. reflexivity.
  - exists (join NL (b :: bs) ++ NL ++ body).
    rewrite <- !app_assoc. reflexivity.
Qed.

(** The document starts with the B of BEGIN and ends with the D of
    END:VCARD, so trimming leaves it as it is. *)
Lemma strip_to_vcard cs : strip (to_vcard cs) = to_vcard cs.
Proof.
  destruct cs as [|e es]; [reflexivity|].
  unfold strip.
  assert (L : lstrip (to_vcard (e :: es)) = to_vcard (e :: es)).
  { rewrite to_vcard_blocks. destruct e as [n p].
    destruct es; reflexivity. }
  rewrite L.
  assert (Hne : e :: es <> []) by discriminate.
  destruct (exists_last Hne) as [es' [e' E]]. rewrite E.
  destruct (to_vcard_tail es' e') as [q Hq]. rewrite Hq.
  rewrite app_assoc. apply rstrip_snoc_nonspace. reflexivity.
Qed.

Lemma to_vcard_truthy e es : truthy (to_vcard (e :: es)) = true.
Proof.
  rewrite to_vcard_blocks. destruct e as [n p]. destruct es; reflexivity.
Qed.

End DocumentFacts.

(** X12: for contacts whose name and phone hold no line boundary, splitting
    the document into lines gives back the five lines of every contact, in
    order: five lines a contact and nothing else. *)
Theorem to_vcard_splitlines cs :
  forallb one_line_contact cs = true ->
  splitlines (to_vcard cs) = flat_map vcard_block_lines cs
  /\ length (splitlines (to_vcard cs)) = 5 * length cs.
Proof.
  intros H.
  assert (E : splitlines (to_vcard cs) = flat_map vcard_block_lines cs).
  { rewrite to_vcard_lines. apply splitlines_join.
    apply document_lines_clean. exact H. }
  split; [exact E|]. rewrite E. clear.
  induction cs as [|[n p] cs IH]; [reflexivity|].
  cbn [flat_map]. rewrite length_app, IH. cbn [vcard_block_lines length].
  lia.
Qed.

Lemma to_vcard_splitlines_witness :
  forallb one_line_contact [(lit "Azim", lit "+79251989091")] = true
  /\ splitlines (to_vcard [(lit "Azim", lit "+79251989091")])
     = flat_map vcard_block_lines [(lit "Azim", lit "+79251989091")]
  /\ length (splitlines (to_vcard [(lit "Azim", lit "+79251989091")]))
     = 5 * length [(lit "Azim", lit "+79251989091")].
Proof.
  split; [vm_compute; reflexivity|].
  apply (to_vcard_splitlines [(lit "Azim", lit "+79251989091")]).
  vm_compute. reflexivity.
Defined.

(** X13: the document determines the contacts: two lists of contacts whose
    names and phones hold no line boundary and that give the same document
    are the same list. *)
Theorem to_vcard_injective cs cs' :
  forallb one_line_contact cs = true ->
  forallb one_line_contact cs' = true ->
  to_vcard cs = to_vcard cs' -> cs = cs'.
Proof.
  intros H H' E. apply block_lines_inj.
  rewrite <- (splitlines_join _ (document_lines_clean _ H)).
  rewrite <- (splitlines_join _ (document_lines_clean _ H')).
  rewrite <- !to_vcard_lines, E. reflexivity.
Qed.

Lemma to_vcard_injective_witness :
  (forallb one_line_contact [(lit "A", lit "+1")] = true
   /\ forallb one_line_contact [(lit "A", lit "+1")] = true
   /\ to_vcard [(lit "A", lit "+1")] = to_vcard [(lit "A", lit "+1")])
  /\ [(lit "A", lit "+1")] = [(lit "A", lit "+1")].
Proof.
  split; [repeat split; vm_compute; reflexivity|].
  apply (to_vcard_injective [(lit "A", lit "+1")] [(lit "A", lit "+1")]);
    vm_compute; reflexivity.
Defined.

(** X14: the whole pipeline keeps five lines a contact: the document made of
    the contacts parsed from any text splits into exactly the five lines of
    every contact, in order. *)
Theorem parsed_document_lines text :
  exists contacts warnings,
    parse_contacts text = Ok (contacts, warnings)
    /\ splitlines (to_vcard contacts) = flat_map vcard_block_lines contacts
    /\ length (splitlines (to_vcard contacts)) = 5 * length contacts.
Proof.
  destruct (parse_contacts text) as [[cs ws]|e] eqn:P.
  - exists cs, ws. split; [reflexivity|].
    assert (H : forallb one_line_contact cs = true).
    { rewrite forallb_forall. intros [n p] Hin.
      destruct (parsed_contact_origin _ _ _ _ _ P Hin) as [raw [Hr ->]].
      apply in_candidate_pairs in Hr. destruct Hr as [Hn _].
      destruct (raw_line_clean _ _ Hn) as [_ [Ln _]].
      unfold one_line_contact. cbn [fst snd]. rewrite Ln.
      apply no_blank_no_linebreak. apply normalized_phone_no_blank. }
    assert (E : splitlines (to_vcard cs) = flat_map vcard_block_lines cs).
    { rewrite to_vcard_lines. apply splitlines_join.
      apply document_lines_clean. exact H. }
    split; [exact E|]. rewrite E. clear.
    induction cs as [|[n p] cs IH]; [reflexivity|].
    cbn [flat_map]. rewrite length_app, IH. cbn [vcard_block_lines length].
    lia.
  - exfalso. unfold parse_contacts in P. cbv zeta in P.
    rewrite parse_lines_closed in P. discriminate.
Qed.

(** X15: documents compose: the document of two non-empty lists of contacts
    put one after the other is the two documents with one line feed between
    them. *)
Theorem to_vcard_app a b :
  a <> [] -> b <> [] ->
  to_vcard (a ++ b) = to_vcard a ++ NL ++ to_vcard b.
Proof.
  intros Ha Hb. rewrite !to_vcard_blocks, map_app.
  apply join_app.
  - destruct a; [congruence | discriminate].
  - destruct b; [congruence | discriminate].
Qed.

Lemma to_vcard_app_witness :
  ([(lit "A", lit "+1")] <> [] /\ [(lit "B", lit "+2")] <> [])
  /\ to_vcard ([(lit "A", lit "+1")] ++ [(lit "B", lit "+2")])
     = to_vcard [(lit "A", lit "+1")] ++ NL ++ to_vcard [(lit "B", lit "+2")].
Proof.
  split; [split; discriminate|].
  apply (to_vcard_app [(lit "A", lit "+1")] [(lit "B", lit "+2")]);
    discriminate.
Defined.

(** ** Properties of the handlers *)

Section HandlerFacts.

Lemma strip_padded_document w1 cs w2 :
  blank w1 = true -> blank w2 = true ->
  strip (w1 ++ to_vcard cs ++ w2) = to_vcard cs.
Proof.
  intros H1 H2. rewrite (strip_padding _ _ _ H1 H2). apply strip_to_vcard.
Qed.

Lemma in_trailing_warning w lines :
  In w (trailing_warning lines) ->
  exists name, In name lines /\ w = warn_dangling name.
Proof.
  induction lines as [| x | x y l IH] using two_step_ind; cbn.
  - intros [].
  - intros [<- | []]. exists x. auto.
  - intros H. destruct (IH H) as [name [Hin E]]. exists name. auto.
Qed.

Lemma warn_dangling_one_line name :
  no_linebreak name = true ->
  no_linebreak (warn_dangling name) = true
  /\ truthy (warn_dangling name) = true.
Proof.
  intros H. unfold warn_dangling. split; [|reflexivity].
  rewrite !no_linebreak_app, H. vm_compute. reflexivity.
Qed.

Lemma warn_unrecognized_one_line name phone :
  no_linebreak name = true -> no_linebreak phone = true ->
  no_linebreak (warn_unrecognized name phone) = true
  /\ truthy (warn_unrecognized name phone) = true.
Proof.
  intros Hn Hp. unfold warn_unrecognized. split; [|reflexivity].
  rewrite !no_linebreak_app, Hn, Hp. vm_compute. reflexivity.
Qed.

(** Every warning of the loop is one non-empty line. *)
Lemma parsed_warnings_one_line text :
  forallb (fun l => no_linebreak l && truthy l)
    (flat_map warning_of_pair (candidate_pairs (raw_lines text))
       ++ trailing_warning (raw_lines text)) = true.
Proof.
  rewrite forallb_forall. intros w Hw. apply in_app_or in Hw.
  destruct Hw as [Hw | Hw].
  - destruct (in_warning_of_pairs _ _ Hw) as [n [p [Hin ->]]].
    apply in_candidate_pairs in Hin. destruct Hin as [Hn Hp].
    destruct (raw_line_clean _ _ Hn) as [_ [Ln _]].
    destruct (raw_line_clean _ _ Hp) as [_ [Lp _]].
    destruct (warn_unrecognized_one_line n p Ln Lp) as [A B].
    rewrite A, B. reflexivity.
  - destruct (in_trailing_warning _ _ Hw) as [n [Hn ->]].
    destruct (raw_line_clean _ _ Hn) as [_ [Ln _]].
    destruct (warn_dangling_one_line n Ln) as [A B].
    rewrite A, B. reflexivity.
Qed.

End HandlerFacts.

(** X16: [on_convert] never fails: it replaces the output by the document of
    the parsed contacts and shows the warning dialog exactly when there is a
    warning; the text of the dialog has one line for every warning, in
    order. *)
Theorem on_convert_dialog src :
  exists contacts warnings,
    parse_contacts src = Ok (contacts, warnings)
    /\ splitlines (join NL warnings) = warnings
    /\ (warnings = [] ->
        on_convert src = Ok [OutputDelete; OutputInsert (to_vcard contacts)])
    /\ (warnings <> [] ->
        on_convert src
        = Ok [OutputDelete; OutputInsert (to_vcard contacts);
              ShowWarning (lit "Предупреждения") (join NL warnings)]).
Proof.
  unfold on_convert, parse_contacts. cbv zeta.
  rewrite parse_lines_closed. cbn [bind].
  eexists. eexists. split; [reflexivity|].
  split; [apply splitlines_join; apply parsed_warnings_one_line|].
  destruct (flat_map warning_of_pair (candidate_pairs (raw_lines src))
              ++ trailing_warning (raw_lines src)) as [|w ws].
  - split; [reflexivity | congruence].
  - split; [discriminate | reflexivity].
Qed.

(** X17: [on_copy] puts on the clipboard exactly the document shown in the
    output widget, whatever blanks the widget adds around it, and touches the
    clipboard only when there is at least one contact. *)
Theorem on_copy_document w1 cs w2 :
  blank w1 = true -> blank w2 = true ->
  on_copy (w1 ++ to_vcard cs ++ w2)
  = match cs with
    | [] => [ShowInfo (lit "Копирование") (lit "Нет данных для копирования")]
    | _ :: _ =>
        [ClipboardClear; ClipboardAppend (to_vcard cs);
         ShowInfo (lit "Копирование")
           (lit "Готово. Результат скопирован в буфер обмена.")]
    end.
Proof.
  intros H1 H2. unfold on_copy. cbv zeta.
  rewrite (strip_padded_document _ cs _ H1 H2).
  destruct cs as [|e es]; [reflexivity|].
  rewrite to_vcard_truthy. reflexivity.
Qed.

Lemma on_copy_document_witness :
  (blank [] = true /\ blank NL = true)
  /\ on_copy ([] ++ to_vcard [(lit "A", lit "+1")] ++ NL)
     = [ClipboardClear; ClipboardAppend (to_vcard [(lit "A", lit "+1")]);
        ShowInfo (lit "Копирование")
          (lit "Готово. Результат скопирован в буфер обмена.")].
Proof.
  split; [split; vm_compute; reflexivity|].
  apply (on_copy_document [] [(lit "A", lit "+1")] NL);
    vm_compute; reflexivity.
Defined.

(** X18: when the write succeeds [on_save] writes to the chosen path exactly
    the document shown in the output widget, whatever blanks the widget adds
    around it; with no contact it asks for no path and opens no file. *)
Theorem on_save_document w1 cs w2 path :
  blank w1 = true -> blank w2 = true -> path <> [] ->
  on_save (w1 ++ to_vcard cs ++ w2) path Saved
  = match cs with
    | [] => [ShowInfo (lit "Сохранение") (lit "Нет данных для сохранения")]
    | _ :: _ =>
        [AskSaveAs; OpenForWrite path; WriteData (to_vcard cs);
         ShowInfo (lit "Сохранение") (lit "Файл сохранён: " ++ path)]
    end.
Proof.
  intros H1 H2 Hp. unfold on_save. cbv zeta.
  rewrite (strip_padded_document _ cs _ H1 H2).
  destruct cs as [|e es]; [reflexivity|].
  rewrite to_vcard_truthy. cbn [negb].
  destruct path; [congruence | reflexivity].
Qed.

Lemma on_save_document_witness :
  (blank [] = true /\ blank NL = true /\ lit "a.vcf" <> [])
  /\ on_save ([] ++ to_vcard [(lit "A", lit "+1")] ++ NL) (lit "a.vcf") Saved
     = [AskSaveAs; OpenForWrite (lit "a.vcf");
        WriteData (to_vcard [(lit "A", lit "+1")]);
        ShowInfo (lit "Сохранение") (lit "Файл сохранён: " ++ lit "a.vcf")].
Proof.
  split.
  - split; [vm_compute; reflexivity|].
    split; [vm_compute; reflexivity | vm_compute; discriminate].
  - apply (on_save_document [] [(lit "A", lit "+1")] NL (lit "a.vcf")).
    + vm_compute. reflexivity.
    + vm_compute. reflexivity.
    + vm_compute. discriminate.
Defined.

(** X19: [on_save] never opens a file without a chosen path and never writes
    an empty file: whatever the output, the path and the outcome, a file that
    is opened is the non-empty chosen path, the output is then not blank, and
    data that is written is the trimmed, non-empty output. *)
Theorem on_save_guards output path outcome :
  (forall p, In (OpenForWrite p) (on_save output path outcome) ->
             p = path /\ path <> [] /\ strip output <> [])
  /\ (forall d, In (WriteData d) (on_save output path outcome) ->
                d = strip output /\ d <> [] /\ path <> []
                /\ In (OpenForWrite path) (on_save output path outcome)).
Proof.
  unfold on_save. cbv zeta.
  destruct (strip output) as [|c r] eqn:E; cbn [truthy negb].
  - split; intros x [H | []]; discriminate.
  - destruct path as [|pc pr]; cbn [truthy negb].
    + split; intros x [H | []]; discriminate.
    + assert (Hp : pc :: pr <> []) by discriminate.
      assert (Hd : c :: r <> []) by discriminate.
      destruct outcome; split; intros x H; cbn [In] in H;
        decompose [or] H; clear H; try discriminate; try contradiction;
        match goal with
        | Heq : _ = _ |- _ => injection Heq as <-
        end;
        cbn [In]; auto 6.
Qed.

Lemma on_save_guards_witness :
  In (WriteData (lit "x")) (on_save (lit " x ") (lit "a.vcf") Saved)
  /\ lit "x" = strip (lit " x ")
  /\ lit "x" <> []
  /\ lit "a.vcf" <> []
  /\ In (OpenForWrite (lit "a.vcf")) (on_save (lit " x ") (lit "a.vcf") Saved).
Proof.
  assert (H : In (WriteData (lit "x"))
                (on_save (lit " x ") (lit "a.vcf") Saved))
    by (vm_compute; auto).
  split; [exact H|].
  apply (proj2 (on_save_guards (lit " x ") (lit "a.vcf") Saved) (lit "x") H).
Defined.
